(** * PMC / MedlinePlus crawler (crawlers/pmc_crawler.py)

    A shallow embedding of [PmcCrawler] and of [get_top_n_papers], and the
    properties of the ingestion pipeline checked against it.

    Python values are modelled as follows.
    - [str] is [string]; a value that is either a [str] or [None] (the
      [.text] of an lxml element) is [option string].
    - The two run-scoped sets [site_urls] and [crawled_pmc_ids] are
      [gset string].
    - An lxml element is a tree node with a tag, its leading text and its
      element children; comments and processing instructions never match a
      tag path and are left out.
    - Everything outside the process (Entrez, HTTP, the indexer, the clock)
      is an oracle of the record [World]; an oracle sees the trace of all
      calls made before it, so answers may depend on history.
    - An exception is a value of [exn]; a statement sequence is a function
      from the crawler state to an [outcome], which either returns or
      raises, in both cases with the state reached. *)

From stdpp Require Import base decidable list strings gmap pretty.
From Stdlib Require Import ZArith Lia Ascii.

Local Open Scope Z_scope.
Local Open Scope string_scope.
Local Open Scope list_scope.
Local Open Scope stdpp_scope.

(** ** Exceptions and fallible expressions *)

Inductive exn : Type :=
| AttributeError                  (* attribute access on [None] *)
| KeyError (key : string)         (* missing dict key *)
| TypeError                       (* indexing a str, iterating None *)
| RequestException (msg : string) (* transport failure of requests.get *)
| HTTPError (status : Z)          (* Response.raise_for_status *)
| XMLSyntaxError                  (* etree.fromstring *)
| ExpatError                      (* xmltodict.parse *)
| EntrezError (msg : string).     (* Entrez.esearch / Entrez.read *)

Inductive result (A : Type) : Type :=
| Ok (a : A)
| Err (e : exn).
Arguments Ok {A} a.
Arguments Err {A} e.

Definition result_bind {A B} (r : result A) (k : A → result B) : result B :=
  match r with
  | Ok a => k a
  | Err e => Err e
  end.

(** [try: r except Exception: h] *)
Definition try_except {A} (r : result A) (h : exn → result A) : result A :=
  match r with
  | Ok a => Ok a
  | Err e => h e
  end.

(** Formatting inside an f-string: [None] prints as the four letters. *)
Definition fmt (v : option string) : string :=
  match v with
  | Some s => s
  | None => "None"
  end.

(** ** lxml element trees *)

#[warnings="-register-all"]
Inductive element : Type :=
| Element (tag : string) (text : option string) (children : list element).

Definition tag (e : element) : string :=
  match e with Element t _ _ => t end.

Definition text (e : element) : option string :=
  match e with Element _ x _ => x end.

Definition children (e : element) : list element :=
  match e with Element _ _ cs => cs end.

(** [e.iterdescendants()]: every element below [e], in document order,
    [e] itself excluded. *)
Fixpoint iterdescendants (e : element) : list element :=
  match e with
  | Element _ _ cs => flat_map (fun c => c :: iterdescendants c) cs
  end.

Definition has_tag (t : string) (e : element) : bool :=
  bool_decide (tag e = t).

(** [e.find(".//t")] *)
Definition find_descendant (t : string) (e : element) : option element :=
  head (filter (fun x => has_tag t x = true) (iterdescendants e)).

(** [e.find("t")]: first child with that tag *)
Definition find_child (t : string) (e : element) : option element :=
  head (filter (fun x => has_tag t x = true) (children e)).

(** [e.findall(".//a//b")]: the [b] descendants of every [a] descendant,
    one run per [a] element, in document order. *)
Definition findall_descendant2 (a b : string) (e : element) : list element :=
  flat_map
    (fun x => filter (fun y => has_tag b y = true) (iterdescendants x))
    (filter (fun x => has_tag a x = true) (iterdescendants e)).

(** ** The structured extractor (index_papers_by_topic, lines 69-90) *)

Definition title_not_found : string := "Title not found".
Definition pub_date_not_found : string := "Publication date not found".
Definition pub_date_unknown : string := "unknown".

(** lines 70-74 *)
Definition extract_title (root : element) : option string :=
  match find_descendant "article-title" root with
  | Some title => text title
  | None => Some title_not_found
  end.

(** [x.text] where [x] may be [None] *)
Definition getattr_text (x : option element) : result (option string) :=
  match x with
  | Some e => Ok (text e)
  | None => Err AttributeError
  end.

(** line 83: the f-string reads year.text, month.text, day.text in turn *)
Definition compose_date (year month day : option element) : result (option string) :=
  result_bind (getattr_text year) (fun y =>
  result_bind (getattr_text month) (fun m =>
  result_bind (getattr_text day) (fun d =>
  Ok (Some (fmt y +:+ "-" +:+ fmt m +:+ "-" +:+ fmt d))))).

(** lines 77-90 *)
Definition extract_pub_date (root : element) : result (option string) :=
  match find_descendant "pub-date" root with
  | Some pub_date =>
      let year := find_child "year" pub_date in
      let month := find_child "month" pub_date in
      let day := find_child "day" pub_date in
      try_except (compose_date year month day)
        (fun _ =>
           match year with
           | Some y => Ok (text y)
           | None => Ok (Some pub_date_unknown)
           end)
  | None => Ok (Some pub_date_not_found)
  end.

(** lines 106-109: one section per paragraph, text kept as it is *)
Record section_entry : Type := { sec_text : option string }.

Definition extract_sections (root : element) : list section_entry :=
  map (fun p => {| sec_text := text p |}) (findall_descendant2 "body" "p" root).

(** ** Documents handed to the indexer *)

(** The dict serialised by [json.dumps] into [metadataJson]. *)
Record metadata : Type := {
  md_url : string;
  md_publicationDate : option string;
  md_source : string
}.

Record document : Type := {
  documentId : string;
  doc_title : option string;
  description : string;
  metadataJson : metadata;
  section : list section_entry
}.

(** The [metadata=] dict passed to [index_url]. *)
Record url_metadata : Type := {
  um_url : string;
  um_source : string;
  um_title : string
}.

(** ** The MedlinePlus feed as xmltodict returns it *)

Record site : Type := { site_title : string; site_url : string }.

(** [ht['also-called']] when the key is present: one child gives a str,
    several give a list.  Each child is taken to have text; an empty
    also-called element, which xmltodict reads as None, is not modelled. *)
Inductive synonyms : Type :=
| SynStr (s : string)
| SynList (l : list string).

(** [ht['site']]: xmltodict gives a list only for two or more children. *)
Inductive site_field : Type :=
| SiteMissing
| SiteDict (s : site)
| SiteList (l : list site).

(** One [health-topic] dict.  The attributes read by the crawler
    ('@title', '@id', '@url', '@date-created', '@meta-desc') and the
    'full-summary' child are taken to be present and to be strings, as in
    the published feed; the two fields whose shape varies are kept as
    variants. *)
Record health_topic : Type := {
  ht_title : string;
  ht_id : string;
  ht_url : string;
  ht_date_created : string;
  ht_full_summary : string;
  ht_meta_desc : string;
  ht_also_called : option synonyms;
  ht_site : site_field
}.

(** [xml_dict['health-topics']]: its '@total' attribute and its
    'health-topic' children in document order.  The shape xmltodict gives
    the 'health-topic' entry depends on their number, see
    [health_topics_of]. *)
Record feed : Type := {
  feed_total : string;
  feed_health_topic : list health_topic
}.

(** ** Effects: calls to the outside world *)

(** A [RateLimiter] object; [rl_id] is its identity. *)
Record rate_limiter : Type := {
  rl_id : nat;
  max_calls : Z;
  period : Z
}.

Record response : Type := { status_code : Z; resp_text : string }.

Record search_results : Type := { IdList : list string }.

Inductive event : Type :=
| EvLog (msg : string)
| EvMakedirs (folder : string)
| EvESearch (email term : string) (retmax : Z)
| EvGet (limiter : option rate_limiter) (url : string) (params : list (string * string))
| EvIndexDocument (d : document)
| EvIndexUrl (limiter : option rate_limiter) (url : string) (md : url_metadata).

Record World : Type := {
  (* Entrez.read(Entrez.esearch(db="pmc", term, retmax, usehistory="y")) *)
  w_esearch : list event → string → Z → result search_results;
  (* requests.get(url, params) *)
  w_get : list event → string → list (string * string) → result response;
  (* self.indexer.index_document / index_url *)
  w_index_document : list event → document → bool;
  w_index_url : list event → string → url_metadata → bool;
  (* datetime.now().strftime("%Y-%m-%d") *)
  w_today : list event → string;
  (* library functions *)
  w_lower : string → string;                  (* str.lower *)
  w_fromstring : string → result element;     (* etree.fromstring *)
  w_xmltodict_parse : string → result feed;   (* xmltodict.parse *)
  w_html_to_text : string → string;           (* core.utils.html_to_text *)
  w_list_set : list string → list string      (* list(set(l)) *)
}.

(** [list(set(l))] keeps every member once, in an order of its own. *)
Definition list_set_spec (f : list string → list string) : Prop :=
  ∀ l, NoDup (f l) ∧ ∀ x, x ∈ f l ↔ x ∈ l.

(** ** Crawler state and the statement monad *)

Record state : Type := {
  trace : list event;
  site_urls : gset string;
  crawled_pmc_ids : gset string;
  next_limiter : nat
}.

Inductive outcome (A : Type) : Type :=
| Returned (a : A) (st : state)
| Raised (e : exn) (st : state).
Arguments Returned {A} a st.
Arguments Raised {A} e st.

Definition final {A} (o : outcome A) : state :=
  match o with
  | Returned _ st => st
  | Raised _ st => st
  end.

Definition M (A : Type) : Type := state → outcome A.

Definition ret {A} (a : A) : M A := fun st => Returned a st.

Definition raise {A} (e : exn) : M A := fun st => Raised e st.

Definition bind {A B} (m : M A) (k : A → M B) : M B :=
  fun st =>
    match m st with
    | Returned a st' => k a st'
    | Raised e st' => Raised e st'
    end.

Notation "'let*' x := m 'in' k" := (bind m (fun x => k))
  (at level 10, x name, m at level 100, k at level 200, only parsing).

Definition lift {A} (r : result A) : M A :=
  match r with
  | Ok a => ret a
  | Err e => raise e
  end.

(** [try: m except Exception as e: h e] *)
Definition try_catch {A} (m : M A) (h : exn → M A) : M A :=
  fun st =>
    match m st with
    | Returned a st' => Returned a st'
    | Raised e st' => h e st'
    end.

(** [for x in l: body x] *)
Fixpoint for_each {A} (l : list A) (body : A → M unit) : M unit :=
  match l with
  | [] => ret tt
  | x :: l' => let* _ := body x in for_each l' body
  end.

Definition enumerate {A} (l : list A) : list (nat * A) := imap pair l.

Definition when (b : bool) (m : M unit) : M unit :=
  if b then m else ret tt.

Definition emit (e : event) : state → state :=
  fun st =>
    {| trace := trace st ++ [e];
       site_urls := site_urls st;
       crawled_pmc_ids := crawled_pmc_ids st;
       next_limiter := next_limiter st |}.

Definition logging_info (msg : string) : M unit :=
  fun st => Returned tt (emit (EvLog msg) st).

Definition os_makedirs (folder : string) : M unit :=
  fun st => Returned tt (emit (EvMakedirs folder) st).

(** [RateLimiter(max_calls=mc, period=p)]: a fresh object *)
Definition RateLimiter (mc p : Z) : M rate_limiter :=
  fun st =>
    Returned {| rl_id := next_limiter st; max_calls := mc; period := p |}
      {| trace := trace st;
         site_urls := site_urls st;
         crawled_pmc_ids := crawled_pmc_ids st;
         next_limiter := S (next_limiter st) |}.

(** [requests.get], issued inside [with lim:] when [lim] is [Some _] *)
Definition requests_get (W : World) (lim : option rate_limiter)
    (url : string) (params : list (string * string)) : M response :=
  fun st =>
    match w_get W (trace st) url params with
    | Ok r => Returned r (emit (EvGet lim url params) st)
    | Err e => Raised e (emit (EvGet lim url params) st)
    end.

Definition index_document (W : World) (d : document) : M bool :=
  fun st =>
    Returned (w_index_document W (trace st) d) (emit (EvIndexDocument d) st).

Definition index_url (W : World) (lim : option rate_limiter)
    (url : string) (md : url_metadata) : M bool :=
  fun st =>
    Returned (w_index_url W (trace st) url md) (emit (EvIndexUrl lim url md) st).

Definition seen_pmc_id (pmc_id : string) : M bool :=
  fun st => Returned (bool_decide (pmc_id ∈ crawled_pmc_ids st)) st.

(** [self.crawled_pmc_ids.add(pmc_id)] *)
Definition add_pmc_id (pmc_id : string) : M unit :=
  fun st =>
    Returned tt
      {| trace := trace st;
         site_urls := site_urls st;
         crawled_pmc_ids := {[pmc_id]} ∪ crawled_pmc_ids st;
         next_limiter := next_limiter st |}.

Definition seen_site_url (u : string) : M bool :=
  fun st => Returned (bool_decide (u ∈ site_urls st)) st.

(** [self.site_urls.add(u)] *)
Definition add_site_url (u : string) : M unit :=
  fun st =>
    Returned tt
      {| trace := trace st;
         site_urls := {[u]} ∪ site_urls st;
         crawled_pmc_ids := crawled_pmc_ids st;
         next_limiter := next_limiter st |}.

(** ** get_top_n_papers (lines 15-29) *)

Definition get_top_n_papers (W : World) (topic : string) (n : Z) (email : string)
    : M (list string) :=
  fun st =>
    match w_esearch W (trace st) topic n with
    | Ok search_results =>
        Returned (IdList search_results) (emit (EvESearch email topic n) st)
    | Err e => Raised e (emit (EvESearch email topic n) st)
    end.

(** ** PmcCrawler.index_papers_by_topic (lines 38-113) *)

Definition email : string := "crawler@vectara.com".

Definition base_url : string :=
  "https://eutils.ncbi.nlm.nih.gov/entrez/eutils/efetch.fcgi".

(** line 55 *)
Definition fetch_params (pmc_id : string) : list (string * string) :=
  [("db", "pmc"); ("id", pmc_id); ("retmode", "xml");
   ("tool", "python_script"); ("email", email)].

(** [str(e)] of a caught exception *)
Definition exn_str (e : exn) : string :=
  match e with
  | RequestException msg => msg
  | EntrezError msg => msg
  | KeyError k => "'" +:+ k +:+ "'"
  | HTTPError _ => "HTTPError"
  | AttributeError => "AttributeError"
  | TypeError => "TypeError"
  | XMLSyntaxError => "XMLSyntaxError"
  | ExpatError => "ExpatError"
  end.

(** lines 56-64; [None] stands for the two [continue] exits *)
Definition fetch_paper (W : World) (rl : rate_limiter) (pmc_id : string)
    : M (option response) :=
  let* r :=
    try_catch
      (let* response := requests_get W (Some rl) base_url (fetch_params pmc_id) in
       ret (Some response))
      (fun e =>
         let* _ := logging_info ("Failed to download paper " +:+ pmc_id +:+
                                 " due to error " +:+ exn_str e +:+ ", skipping") in
         ret None) in
  match r with
  | None => ret None
  | Some response =>
      if bool_decide (status_code response ≠ 200)
      then
        let* _ := logging_info ("Failed to download paper " +:+ pmc_id +:+
                                ", skipping") in
        ret None
      else ret (Some response)
  end.

(** lines 95-109 *)
Definition paper_document (pmc_id : string) (title pub_date : option string)
    (root : element) : document :=
  {| documentId := pmc_id;
     doc_title := title;
     description := "";
     metadataJson :=
       {| md_url := "https://www.ncbi.nlm.nih.gov/pmc/articles/PMC" +:+ pmc_id +:+ "/";
          md_publicationDate := pub_date;
          md_source := "pmc" |};
     section := extract_sections root |}.

(** lines 66-109: parse, extract, mark the id as crawled, assemble *)
Definition extract_and_mark (W : World) (pmc_id : string) (response : response)
    : M document :=
  let xml_data := resp_text response in
  let* root := lift (w_fromstring W xml_data) in
  let title := extract_title root in
  let* pub_date := lift (extract_pub_date root) in
  let* _ := add_pmc_id pmc_id in
  let* _ := logging_info ("Indexing paper " +:+ pmc_id +:+
                          " with publication date " +:+ fmt pub_date +:+
                          " and title '" +:+ fmt title +:+ "'") in
  ret (paper_document pmc_id title pub_date root).

(** lines 111-113 *)
Definition index_and_report (W : World) (pmc_id : string) (d : document) : M unit :=
  let* succeeded := index_document W d in
  if negb succeeded
  then logging_info ("Failed to index document " +:+ pmc_id)
  else ret tt.

(** lines 50-51 *)
Definition log_progress (topic : string) (i : nat) : M unit :=
  when (bool_decide ((i mod 100)%nat = 0%nat))
    (logging_info ("Indexed " +:+ pretty i +:+ " papers so far for topic " +:+ topic)).

(** the body of the loop of line 49 *)
Definition paper_body (W : World) (topic : string) (rl : rate_limiter)
    (ip : nat * string) : M unit :=
  let i := fst ip in
  let pmc_id := snd ip in
  let* _ := log_progress topic i in
  let* seen := seen_pmc_id pmc_id in
  if seen then ret tt
  else
    let* r := fetch_paper W rl pmc_id in
    match r with
    | None => ret tt
    | Some response =>
        let* d := extract_and_mark W pmc_id response in
        index_and_report W pmc_id d
    end.

Definition index_papers_by_topic (W : World) (topic : string) (n_papers : Z) : M unit :=
  let* ids := get_top_n_papers W topic n_papers email in
  let papers := w_list_set W ids in
  let* _ := logging_info ("Found " +:+ pretty (length papers) +:+
                          " papers for topic " +:+ topic +:+ ", now indexing...") in
  let* rl := RateLimiter 3 1 in
  for_each (enumerate papers) (paper_body W topic rl).

(** ** PmcCrawler.index_medline_plus (lines 115-173) *)

(** lines 126-132 *)
Definition all_names (W : World) (ht : health_topic) : list string :=
  [w_lower W (ht_title ht)] ++
  match ht_also_called ht with
  | Some (SynList l) => map (w_lower W) l
  | Some (SynStr s) => [w_lower W s]
  | None => []
  end.

(** line 133: [any([t.lower() in all_names for t in topics])] *)
Definition topic_matches (W : World) (topics : list string) (ht : health_topic) : bool :=
  existsb (fun t => bool_decide (w_lower W t ∈ all_names W ht)) topics.

(** lines 137-159 *)
Definition medline_document (W : World) (ht : health_topic) : document :=
  {| documentId := "medline-plus-" +:+ ht_id ht;
     doc_title := Some (ht_title ht);
     description := "medline information for " +:+ ht_title ht;
     metadataJson :=
       {| md_url := ht_url ht;
          md_publicationDate := Some (ht_date_created ht);
          md_source := "pmc" |};
     section :=
       [ {| sec_text := Some (ht_meta_desc ht) |};
         {| sec_text := Some (w_html_to_text W (ht_full_summary ht)) |} ] |}.

(** line 165, [ht['site']] as a sequence of site dicts.  A lone dict is
    iterated by key, and subscripting the first key (a str) with '@title'
    raises. *)
Definition sites_of (ht : health_topic) : M (list site) :=
  match ht_site ht with
  | SiteList l => ret l
  | SiteDict _ => raise TypeError
  | SiteMissing => raise (KeyError "site")
  end.

(** line 173 *)
Definition site_metadata (s : site) : url_metadata :=
  {| um_url := site_url s; um_source := "medline_plus"; um_title := site_title s |}.

(** lines 166-173 *)
Definition index_site (W : World) (rl : rate_limiter) (s : site) : M unit :=
  let* seen := seen_site_url (site_url s) in
  if seen then ret tt
  else
    let* _ := add_site_url (site_url s) in
    let* succeeded := index_url W (Some rl) (site_url s) (site_metadata s) in
    ret tt.

(** the body of the loop of line 124 *)
Definition medline_body (W : World) (topics : list string) (rl : rate_limiter)
    (ht : health_topic) : M unit :=
  let title := ht_title ht in
  if negb (topic_matches W topics ht)
  then logging_info ("Skipping " +:+ title +:+
                     " because it is not in our list of topics to crawl")
  else
    let d := medline_document W ht in
    let* _ := logging_info ("Indexing data about " +:+ title) in
    let* succeeded := index_document W d in
    if negb succeeded
    then logging_info ("Failed to index document " +:+ title)
    else
      let* sites := sites_of ht in
      for_each sites (index_site W rl).

Definition feed_url (today : string) : string :=
  "https://medlineplus.gov/xml/mplus_topics_" +:+ today +:+ ".xml".

(** [response.raise_for_status()] raises for 4xx and 5xx only *)
Definition raise_for_status (r : response) : M unit :=
  if bool_decide (400 ≤ status_code r < 600)
  then raise (HTTPError (status_code r))
  else ret tt.

Definition datetime_today (W : World) : M string :=
  fun st => Returned (w_today W (trace st)) st.

(** line 124, [xml_dict['health-topics']['health-topic']] as a sequence
    of topic dicts.  xmltodict gives a list only for two or more children:
    with none the key is missing, and a lone dict is iterated by key, where
    subscripting the first key (a str) with '@title' raises (line 125). *)
Definition health_topics_of (xml_dict : feed) : M (list health_topic) :=
  match feed_health_topic xml_dict with
  | [] => raise (KeyError "health-topic")
  | [_] => raise TypeError
  | l => ret l
  end.

Definition index_medline_plus (W : World) (topics : list string) : M unit :=
  let* today := datetime_today W in
  let* response := requests_get W None (feed_url today) [] in
  let* _ := raise_for_status response in
  let* xml_dict := lift (w_xmltodict_parse W (resp_text response)) in
  let* _ := logging_info ("Indexing " +:+ feed_total xml_dict +:+
                          " health topics from MedlinePlus") in
  let* rl := RateLimiter 3 1 in
  let* health_topics := health_topics_of xml_dict in
  for_each health_topics (medline_body W topics rl).

(** ** PmcCrawler.crawl (lines 175-184) *)

Record config : Type := { topics : list string; n_papers : Z }.

(** the loop of lines 183-184 *)
Definition crawl_papers (W : World) (ts : list string) (n : Z) : M unit :=
  for_each ts (fun topic => index_papers_by_topic W topic n).

Definition crawl (W : World) (cfg : config) : M unit :=
  let* _ := os_makedirs "papers" in
  let* _ := index_medline_plus W (topics cfg) in
  crawl_papers W (topics cfg) (n_papers cfg).

(** [PmcCrawler.__init__] (lines 35-36): both sets start empty. *)
Definition init_state : state :=
  {| trace := []; site_urls := ∅; crawled_pmc_ids := ∅; next_limiter := 0 |}.

(** ** Specification vocabulary *)

(** [m] run from any state ends (returning or raising) in a state related
    to the start by [R]. *)
Definition preserves {A} (R : state → state → Prop) (m : M A) : Prop :=
  ∀ st, R st (final (m st)).

(** The trace grew by events that all satisfy [P]. *)
Definition extends (P : event → Prop) (st st' : state) : Prop :=
  ∃ evs, trace st' = trace st ++ evs ∧ Forall P evs.

(** The component [f] of the state is left as it was. *)
Definition frame {X} (f : state → X) (st st' : state) : Prop := f st' = f st.

(** What one pass over a topic's papers may emit under limiter [rl]. *)
Definition paper_event (rl : rate_limiter) (e : event) : Prop :=
  match e with
  | EvLog _ => True
  | EvGet lim url params =>
      lim = Some rl ∧ url = base_url ∧ ∃ pmc_id, params = fetch_params pmc_id
  | EvIndexDocument d =>
      ∃ pmc_id root pub_date,
        extract_pub_date root = Ok pub_date ∧
        d = paper_document pmc_id (extract_title root) pub_date root
  | _ => False
  end.

(** What one pass over the health topics may emit under limiter [rl]. *)
Definition medline_event (W : World) (rl : rate_limiter) (e : event) : Prop :=
  match e with
  | EvLog _ => True
  | EvIndexDocument d => ∃ ht, d = medline_document W ht
  | EvIndexUrl lim url md =>
      lim = Some rl ∧ ∃ s, url = site_url s ∧ md = site_metadata s
  | _ => False
  end.

(** The limiter built by the [k]-th [RateLimiter(max_calls=3, period=1)]. *)
Definition limiter (k : nat) : rate_limiter :=
  {| rl_id := k; max_calls := 3; period := 1 |}.

(** Events of [index_papers_by_topic] started with [next_limiter = k]. *)
Definition topic_event (k : nat) (e : event) : Prop :=
  match e with
  | EvESearch _ _ _ => True
  | _ => paper_event (limiter k) e
  end.

(** Events of [index_medline_plus] started with [next_limiter = k]. *)
Definition feed_event (W : World) (k : nat) (e : event) : Prop :=
  match e with
  | EvGet lim _ params => lim = None ∧ params = []
  | _ => medline_event W (limiter k) e
  end.

(** What a whole crawl may hand to the indexer or request. *)
Definition crawl_event (W : World) (e : event) : Prop :=
  match e with
  | EvIndexDocument d =>
      (∃ ht, d = medline_document W ht) ∨
      (∃ pmc_id root pub_date,
         extract_pub_date root = Ok pub_date ∧
         d = paper_document pmc_id (extract_title root) pub_date root)
  | EvGet lim _ _ => lim = None ∨ ∃ k, lim = Some (limiter k)
  | EvIndexUrl lim _ md => (∃ k, lim = Some (limiter k)) ∧ um_source md = "medline_plus"
  | _ => True
  end.

(** The limiter each outbound request went through, in trace order:
    [None] for a request made outside any [with rate_limiter:] block. *)
Definition request_limiter (e : event) : option (option rate_limiter) :=
  match e with
  | EvGet lim _ _ => Some lim
  | EvIndexUrl lim _ _ => Some lim
  | _ => None
  end.

Definition limiters_used (tr : list event) : list (option rate_limiter) :=
  omap request_limiter tr.

(** The topics searched and the URLs sent to [index_url], in trace order. *)
Definition searched_topics (tr : list event) : list string :=
  omap (fun e => match e with EvESearch _ t _ => Some t | _ => None end) tr.

Definition indexed_urls (tr : list event) : list string :=
  omap (fun e => match e with EvIndexUrl _ u _ => Some u | _ => None end) tr.

(** *** Counting the calls made for one paper *)

Fixpoint count (p : event → bool) (tr : list event) : nat :=
  match tr with
  | [] => 0
  | e :: tr' => (if p e then 1 else 0) + count p tr'
  end.

(** [e] is the download of paper [pmc_id] (line 58). *)
Definition is_fetch_of (pmc_id : string) (e : event) : bool :=
  match e with
  | EvGet _ url params => bool_decide (url = base_url ∧ params = fetch_params pmc_id)
  | _ => false
  end.

(** [e] hands a paper document for [pmc_id] to the indexer (line 111).
    Paper documents are the ones with an empty description (line 98);
    health-topic documents always have a non-empty one (line 145). *)
Definition is_index_of (pmc_id : string) (e : event) : bool :=
  match e with
  | EvIndexDocument d => bool_decide (documentId d = pmc_id ∧ description d = "")
  | _ => false
  end.

(** Whenever paper [pmc_id] is requested, it downloads with status 200 and
    its payload parses. *)
Definition fetch_succeeds (W : World) (pmc_id : string) : Prop :=
  ∀ tr, ∃ r root,
    w_get W tr base_url (fetch_params pmc_id) = Ok r ∧
    status_code r = 200 ∧
    w_fromstring W (resp_text r) = Ok root.

(** Discovery for [topic] answers, and [pmc_id] is among the ids. *)
Definition discovered (W : World) (topic : string) (n : Z) (pmc_id : string) : Prop :=
  ∀ tr, ∃ sr, w_esearch W tr topic n = Ok sr ∧ pmc_id ∈ IdList sr.

(** Either [pmc_id] is unseen and no call was made for it beyond the
    [f0] downloads and [i0] index calls counted at the start, or it is seen
    and exactly one of each was added. *)
Definition dedup_inv (pmc_id : string) (f0 i0 : nat) (st : state) : Prop :=
  ((pmc_id ∉ crawled_pmc_ids st) ∧
   count (is_fetch_of pmc_id) (trace st) = f0 ∧
   count (is_index_of pmc_id) (trace st) = i0) ∨
  (pmc_id ∈ crawled_pmc_ids st ∧
   count (is_fetch_of pmc_id) (trace st) = S f0 ∧
   count (is_index_of pmc_id) (trace st) = S i0).

Definition dedup_rel (pmc_id : string) (st st' : state) : Prop :=
  ∀ f0 i0, dedup_inv pmc_id f0 i0 st → dedup_inv pmc_id f0 i0 st'.

(** The seen set only grows. *)
Definition ids_grow (st st' : state) : Prop :=
  crawled_pmc_ids st ⊆ crawled_pmc_ids st'.

(** Only [x] may have been added to the seen set. *)
Definition ids_except (x : string) (st st' : state) : Prop :=
  ∀ y, y ≠ x → (y ∈ crawled_pmc_ids st' ↔ y ∈ crawled_pmc_ids st).

(** What one pass of the loop body for paper [x] may emit. *)
Definition body_event (rl : rate_limiter) (x : string) (e : event) : Prop :=
  match e with
  | EvLog _ => True
  | EvGet lim url params => lim = Some rl ∧ url = base_url ∧ params = fetch_params x
  | EvIndexDocument d =>
      ∃ root pub_date,
        extract_pub_date root = Ok pub_date ∧
        d = paper_document x (extract_title root) pub_date root
  | _ => False
  end.

(** Events that concern another paper, or none, do not count. *)
Definition unrelated (pmc_id : string) (e : event) : Prop :=
  is_fetch_of pmc_id e = false ∧ is_index_of pmc_id e = false.

(** ** Sample inputs *)

(** [str.lower] on ASCII letters; other bytes are kept. *)
Definition lower_ascii (c : ascii) : ascii :=
  let n := nat_of_ascii c in
  if bool_decide (65 ≤ n ≤ 90)%nat then ascii_of_nat (n + 32) else c.

Fixpoint lower (s : string) : string :=
  match s with
  | EmptyString => EmptyString
  | String c s' => String (lower_ascii c) (lower s')
  end.

(** A paper with a title, a full date and two paragraphs. *)
Definition paper_full : element :=
  Element "article" None
    [ Element "front" None
        [ Element "article-title" (Some "Insulin") [];
          Element "pub-date" None
            [ Element "day" (Some "07") [];
              Element "month" (Some "03") [];
              Element "year" (Some "2020") [] ] ];
      Element "body" None
        [ Element "p" (Some "first") [];
          Element "sec" None [ Element "p" None [] ] ] ].

(** A paper whose date has a year only. *)
Definition paper_year_only : element :=
  Element "article" None
    [ Element "pub-date" None [ Element "year" (Some "2019") [] ] ].

(** A paper whose date element has a month but no year. *)
Definition paper_no_year : element :=
  Element "article" None
    [ Element "pub-date" None [ Element "month" (Some "11") [] ] ].

(** A paper with neither title nor date. *)
Definition paper_bare : element := Element "article" None [].

(** A paper whose title starts with markup, so that its [.text] is [None]. *)
Definition paper_markup_title : element :=
  Element "article" None
    [ Element "front" None
        [ Element "article-title" None
            [ Element "italic" (Some "E. coli") [] ] ] ].

(** A health topic called "Diabetes", also called "Sugar". *)
Definition ht_diabetes : health_topic :=
  {| ht_title := "Diabetes";
     ht_id := "7";
     ht_url := "https://medlineplus.gov/diabetes.html";
     ht_date_created := "01/07/1999";
     ht_full_summary := "<p>Blood sugar</p>";
     ht_meta_desc := "Diabetes summary";
     ht_also_called := Some (SynStr "Sugar");
     ht_site :=
       SiteList
         [ {| site_title := "NIH"; site_url := "https://nih.gov/d" |};
           {| site_title := "CDC"; site_url := "https://cdc.gov/d" |} ] |}.

(** A health topic called "Asthma", with no other name. *)
Definition ht_asthma : health_topic :=
  {| ht_title := "Asthma";
     ht_id := "12";
     ht_url := "https://medlineplus.gov/asthma.html";
     ht_date_created := "03/02/2000";
     ht_full_summary := "<p>Airways</p>";
     ht_meta_desc := "Asthma summary";
     ht_also_called := None;
     ht_site :=
       SiteList
         [ {| site_title := "NIH"; site_url := "https://nih.gov/a" |};
           {| site_title := "CDC"; site_url := "https://cdc.gov/a" |} ] |}.

(** A feed of these two topics. *)
Definition sample_feed : feed :=
  {| feed_total := "2"; feed_health_topic := [ht_diabetes; ht_asthma] |}.

(** The same record with another [also-called] field. *)
Definition with_also_called (a : option synonyms) (ht : health_topic) : health_topic :=
  {| ht_title := ht_title ht;
     ht_id := ht_id ht;
     ht_url := ht_url ht;
     ht_date_created := ht_date_created ht;
     ht_full_summary := ht_full_summary ht;
     ht_meta_desc := ht_meta_desc ht;
     ht_also_called := a;
     ht_site := ht_site ht |}.

(** A world in which discovery returns ["100"; "100"; "101"] for every
    topic but "down", paper "100" downloads and parses, every other paper
    answers 500, and the feed holds the two topics above.  [doc_ok] and
    [url_ok] are the indexer's answers. *)
Definition sample_world (doc_ok url_ok : bool) : World :=
  {| w_esearch := fun _ topic _ =>
       if bool_decide (topic = "down") then Err (EntrezError "unreachable")
       else Ok {| IdList := ["100"; "100"; "101"] |};
     w_get := fun _ url params =>
       if bool_decide (url = base_url)
       then if bool_decide (params = fetch_params "100")
            then Ok {| status_code := 200; resp_text := "<article/>" |}
            else Ok {| status_code := 500; resp_text := "" |}
       else Ok {| status_code := 200; resp_text := "<health-topics/>" |};
     w_index_document := fun _ _ => doc_ok;
     w_index_url := fun _ _ _ => url_ok;
     w_today := fun _ => "2023-05-01";
     w_lower := lower;
     w_fromstring := fun s =>
       if bool_decide (s = "<article/>") then Ok paper_full else Err XMLSyntaxError;
     w_xmltodict_parse := fun _ =>
       Ok sample_feed;
     w_html_to_text := fun s => s;
     w_list_set := remove_dups |}.

(** A world like [sample_world] in which every paper downloads with
    status 200, but only the payload of "100" is well-formed XML. *)
Definition garbled_world : World :=
  {| w_esearch := w_esearch (sample_world true true);
     w_get := fun _ url params =>
       if bool_decide (url = base_url)
       then if bool_decide (params = fetch_params "100")
            then Ok {| status_code := 200; resp_text := "<article/>" |}
            else Ok {| status_code := 200; resp_text := "<article" |}
       else Ok {| status_code := 200; resp_text := "<health-topics/>" |};
     w_index_document := fun _ _ => true;
     w_index_url := fun _ _ _ => true;
     w_today := w_today (sample_world true true);
     w_lower := lower;
     w_fromstring := w_fromstring (sample_world true true);
     w_xmltodict_parse := w_xmltodict_parse (sample_world true true);
     w_html_to_text := fun s => s;
     w_list_set := remove_dups |}.

(** A health topic with a single [site] child, and one with none. *)
Definition with_site (f : site_field) (ht : health_topic) : health_topic :=
  {| ht_title := ht_title ht;
     ht_id := ht_id ht;
     ht_url := ht_url ht;
     ht_date_created := ht_date_created ht;
     ht_full_summary := ht_full_summary ht;
     ht_meta_desc := ht_meta_desc ht;
     ht_also_called := ht_also_called ht;
     ht_site := f |}.

(** A world like [sample_world] whose health-topic feed answers with
    status [status]. *)
Definition feed_status_world (status : Z) : World :=
  {| w_esearch := w_esearch (sample_world true true);
     w_get := fun tr url params =>
       if bool_decide (url = base_url)
       then w_get (sample_world true true) tr url params
       else Ok {| status_code := status; resp_text := "<health-topics/>" |};
     w_index_document := fun _ _ => true;
     w_index_url := fun _ _ _ => true;
     w_today := w_today (sample_world true true);
     w_lower := lower;
     w_fromstring := w_fromstring (sample_world true true);
     w_xmltodict_parse := w_xmltodict_parse (sample_world true true);
     w_html_to_text := fun s => s;
     w_list_set := remove_dups |}.

(** A world like [sample_world] whose feed holds the topics [hts]. *)
Definition feed_of_world (hts : list health_topic) : World :=
  {| w_esearch := w_esearch (sample_world true true);
     w_get := w_get (sample_world true true);
     w_index_document := fun _ _ => true;
     w_index_url := fun _ _ _ => true;
     w_today := w_today (sample_world true true);
     w_lower := lower;
     w_fromstring := w_fromstring (sample_world true true);
     w_xmltodict_parse := fun _ =>
       Ok {| feed_total := pretty (length hts); feed_health_topic := hts |};
     w_html_to_text := fun s => s;
     w_list_set := remove_dups |}.

(** ** Further vocabulary *)

(** [e] is a rate-limited download from the paper endpoint (lines 57-58). *)
Definition is_paper_fetch (e : event) : bool :=
  match e with
  | EvGet (Some _) url _ => bool_decide (url = base_url)
  | _ => false
  end.

(** [e] hands a paper document (empty description, line 98) to the indexer. *)
Definition is_paper_index (e : event) : bool :=
  match e with
  | EvIndexDocument d => bool_decide (description d = "")
  | _ => false
  end.

(** The ids of the paper documents handed to the indexer, in trace order. *)
Definition indexed_paper_ids (tr : list event) : list string :=
  omap (fun e =>
          match e with
          | EvIndexDocument d =>
              if bool_decide (description d = "") then Some (documentId d) else None
          | _ => None
          end) tr.

(** The documents handed to the indexer, in trace order. *)
Definition indexed_documents (tr : list event) : list document :=
  omap (fun e => match e with EvIndexDocument d => Some d | _ => None end) tr.

(** The trace grew by at most [k] paper downloads and no more paper index
    calls than downloads, and the seen set grew by exactly the ids of the
    paper documents indexed. *)
Definition paper_steps (k : nat) (st st' : state) : Prop :=
  ∃ evs,
    trace st' = trace st ++ evs ∧
    crawled_pmc_ids st' = crawled_pmc_ids st ∪ list_to_set (indexed_paper_ids evs) ∧
    (count is_paper_index evs ≤ count is_paper_fetch evs)%nat ∧
    (count is_paper_fetch evs ≤ k)%nat.

(** The trace grew by [index_url] calls for pairwise different URLs, none
    of them recorded before, and the URL set grew by exactly these. *)
Definition site_steps (st st' : state) : Prop :=
  ∃ evs,
    trace st' = trace st ++ evs ∧
    NoDup (indexed_urls evs) ∧
    (∀ u, u ∈ indexed_urls evs → u ∉ site_urls st) ∧
    site_urls st' = site_urls st ∪ list_to_set (indexed_urls evs).

(** What the pass over health topic [ht] may emit. *)
Definition topic_pass_event (W : World) (topics : list string) (rl : rate_limiter)
    (ht : health_topic) (e : event) : Prop :=
  match e with
  | EvLog _ => True
  | EvIndexDocument d =>
      topic_matches W topics ht = true ∧ d = medline_document W ht
  | EvIndexUrl lim url md =>
      topic_matches W topics ht = true ∧ lim = Some rl ∧
      ∃ l s, ht_site ht = SiteList l ∧ s ∈ l ∧ url = site_url s ∧ md = site_metadata s
  | _ => False
  end.

(** If [pmc_id] was seen, it still is and nothing was done for it. *)
Definition seen_quiet (pmc_id : string) (st st' : state) : Prop :=
  pmc_id ∈ crawled_pmc_ids st →
  pmc_id ∈ crawled_pmc_ids st' ∧ extends (unrelated pmc_id) st st'.


(** * Properties *)

(** ** Path lookups *)

Lemma head_filter_Some {A} (P : A → Prop) `{!∀ x, Decision (P x)} (l : list A) (x : A) :
  head (filter P l) = Some x →
  ∃ l1 l2, l = l1 ++ x :: l2 ∧ P x ∧ Forall (fun y => ¬ P y) l1.
Proof.
  induction l as [|a l IH]; simpl; [discriminate|].
  rewrite filter_cons. destruct (decide (P a)) as [Hp|Hn]; simpl.
  - intros [= ->]. exists [], l. repeat split; [done|constructor].
  - intros Hh. destruct (IH Hh) as (l1 & l2 & -> & Hx & Hall).
    exists (a :: l1), l2. repeat split; [done|by constructor].
Qed.

Lemma head_filter_None {A} (P : A → Prop) `{!∀ x, Decision (P x)} (l : list A) :
  head (filter P l) = None → Forall (fun y => ¬ P y) l.
Proof.
  induction l as [|a l IH]; simpl; [constructor|].
  rewrite filter_cons. destruct (decide (P a)); simpl; [discriminate|].
  intros Hh. constructor; auto.
Qed.

Lemma has_tag_true (t : string) (e : element) : has_tag t e = true ↔ tag e = t.
Proof. unfold has_tag. by rewrite bool_decide_eq_true. Qed.

(** ** The publication date *)

Lemma compose_date_ok (y m d : element) :
  compose_date (Some y) (Some m) (Some d)
  = Ok (Some (fmt (text y) +:+ "-" +:+ fmt (text m) +:+ "-" +:+ fmt (text d))).
Proof. reflexivity. Qed.

Lemma compose_date_fails (year month day : option element) :
  (∃ e, compose_date year month day = Err e) ↔ year = None ∨ month = None ∨ day = None.
Proof.
  destruct year, month, day; simpl; split; intros Hx;
    first [ by destruct Hx as [? ?] | by destruct Hx as [?|[?|?]] | eauto ].
Qed.

(** C1. The publication date of a parsed payload follows the sentinel
    rules, and its extraction never raises: without a pub-date element it is
    "Publication date not found"; with one, it is YEAR-MONTH-DAY when the
    year, month and day children all exist, the text of the year child alone
    when composing fails and a year child exists, and "unknown" when
    composing fails and there is no year child. *)
Theorem extract_pub_date_sentinels (root : element) :
  (∃ v, extract_pub_date root = Ok v) ∧
  (find_descendant "pub-date" root = None →
     extract_pub_date root = Ok (Some "Publication date not found")) ∧
  (∀ pd, find_descendant "pub-date" root = Some pd →
     let year := find_child "year" pd in
     let month := find_child "month" pd in
     let day := find_child "day" pd in
     (∀ y m d, year = Some y → month = Some m → day = Some d →
        extract_pub_date root
        = Ok (Some (fmt (text y) +:+ "-" +:+ fmt (text m) +:+ "-" +:+ fmt (text d)))) ∧
     (∀ e y, compose_date year month day = Err e → year = Some y →
        extract_pub_date root = Ok (text y)) ∧
     (∀ e, compose_date year month day = Err e → year = None →
        extract_pub_date root = Ok (Some "unknown"))).
Proof.
  unfold extract_pub_date.
  destruct (find_descendant "pub-date" root) as [pd|] eqn:Hpd.
  - split; [|split; [discriminate|]].
    + destruct (compose_date _ _ _) eqn:Hc; simpl; [eauto|].
      destruct (find_child "year" pd); eauto.
    + intros pd' [= <-]. cbv zeta. repeat split.
      * intros y m d -> -> ->. by rewrite compose_date_ok.
      * intros e y -> ->. reflexivity.
      * intros e -> ->. reflexivity.
  - split; [eauto|]. split; [done|discriminate].
Qed.

Lemma extract_pub_date_sentinels_witness :
  extract_pub_date paper_bare = Ok (Some "Publication date not found")
  ∧ extract_pub_date paper_full = Ok (Some "2020-03-07")
  ∧ extract_pub_date paper_year_only = Ok (Some "2019")
  ∧ extract_pub_date paper_no_year = Ok (Some "unknown").
Proof.
  split; [|split; [|split]].
  - apply (extract_pub_date_sentinels paper_bare). reflexivity.
  - destruct (extract_pub_date_sentinels paper_full) as (_ & _ & H).
    edestruct H as (H1 & _); [reflexivity|].
    apply (H1 (Element "year" (Some "2020") []) (Element "month" (Some "03") [])
              (Element "day" (Some "07") [])); reflexivity.
  - destruct (extract_pub_date_sentinels paper_year_only) as (_ & _ & H).
    edestruct H as (_ & H2 & _); [reflexivity|].
    apply (H2 AttributeError (Element "year" (Some "2019") [])); reflexivity.
  - destruct (extract_pub_date_sentinels paper_no_year) as (_ & _ & H).
    edestruct H as (_ & _ & H3); [reflexivity|].
    apply (H3 AttributeError); reflexivity.
Defined.

(** ** The title *)

(** C8, as the code has it.  The title is the text of the first
    article-title element in document order when there is one, and the
    sentinel "Title not found" when there is none.  The text of an element
    is null when the element has no leading text, so the title is null
    exactly when the first title element exists and has no text. *)
Theorem extract_title_cases (root : element) :
  (∀ t, find_descendant "article-title" root = Some t →
     extract_title root = text t ∧ tag t = "article-title" ∧
     ∃ l1 l2, iterdescendants root = l1 ++ t :: l2 ∧
              Forall (fun x => tag x ≠ "article-title") l1) ∧
  (find_descendant "article-title" root = None →
     extract_title root = Some "Title not found" ∧
     Forall (fun x => tag x ≠ "article-title") (iterdescendants root)) ∧
  (extract_title root = None ↔
     ∃ t, find_descendant "article-title" root = Some t ∧ text t = None).
Proof.
  unfold extract_title, find_descendant.
  destruct (head _) as [t|] eqn:Hh.
  - apply head_filter_Some in Hh as (l1 & l2 & Hl & Ht & Hl1).
    apply has_tag_true in Ht. split; [|split].
    + intros t' [= <-]. repeat split; [done|]. exists l1, l2. split; [done|].
      eapply Forall_impl; [exact Hl1|]. intros x Hx Hx'. apply Hx.
      by apply has_tag_true.
    + discriminate.
    + split; [eauto|]. by intros (t' & [= <-] & ?).
  - apply head_filter_None in Hh. split; [discriminate|]. split.
    + intros _. split; [done|]. eapply Forall_impl; [exact Hh|].
      intros x Hx Hx'. apply Hx. by apply has_tag_true.
    + split; [discriminate|]. by intros (t' & ? & ?).
Qed.

Lemma extract_title_cases_witness :
  extract_title paper_full = Some "Insulin"
  ∧ extract_title paper_bare = Some "Title not found".
Proof.
  split.
  - destruct (extract_title_cases paper_full) as (H & _ & _).
    apply (H (Element "article-title" (Some "Insulin") [])). reflexivity.
  - destruct (extract_title_cases paper_bare) as (_ & H & _).
    apply H. reflexivity.
Defined.

(** A title element that starts with markup yields a null title: the
    title handed on is not always a string. *)
Lemma extract_title_null :
  find_descendant "article-title" paper_markup_title
  = Some (Element "article-title" None [Element "italic" (Some "E. coli") []])
  ∧ extract_title paper_markup_title = None
  ∧ ¬ (∀ root, ∃ s, extract_title root = Some s).
Proof.
  split; [reflexivity|]. split; [reflexivity|].
  intros H. destruct (H paper_markup_title) as [s Hs]. discriminate Hs.
Qed.

(** ** Reasoning about statement sequences *)

Section Preserves.
Context (R : state → state → Prop) `{!Reflexive R, !Transitive R}.

Lemma preserves_ret {A} (a : A) : preserves R (ret a).
Proof. intros st. simpl. reflexivity. Qed.

Lemma preserves_raise {A} (e : exn) : preserves R (raise (A:=A) e).
Proof. intros st. simpl. reflexivity. Qed.

Lemma preserves_lift {A} (r : result A) : preserves R (lift r).
Proof. destruct r; [apply preserves_ret|apply preserves_raise]. Qed.

Lemma preserves_bind {A B} (m : M A) (k : A → M B) :
  preserves R m → (∀ a, preserves R (k a)) → preserves R (bind m k).
Proof.
  intros Hm Hk st. unfold bind. specialize (Hm st).
  destruct (m st) as [a st'|e st']; simpl in *; [|done].
  etrans; [exact Hm|apply Hk].
Qed.

Lemma preserves_try_catch {A} (m : M A) (h : exn → M A) :
  preserves R m → (∀ e, preserves R (h e)) → preserves R (try_catch m h).
Proof.
  intros Hm Hh st. unfold try_catch. specialize (Hm st).
  destruct (m st) as [a st'|e st']; simpl in *; [done|].
  etrans; [exact Hm|apply Hh].
Qed.

Lemma preserves_for_each {A} (l : list A) (body : A → M unit) :
  (∀ x, x ∈ l → preserves R (body x)) → preserves R (for_each l body).
Proof.
  induction l as [|x l IH]; intros Hb; simpl.
  - apply preserves_ret.
  - apply preserves_bind; [apply Hb; left|].
    intros _. apply IH. intros y Hy. apply Hb. by right.
Qed.

Lemma preserves_when (b : bool) (m : M unit) :
  preserves R m → preserves R (when b m).
Proof. destruct b; simpl; [done|intros _; apply preserves_ret]. Qed.
End Preserves.

Ltac pres_step :=
  lazymatch goal with
  | |- preserves _ (bind _ _) => apply preserves_bind; [try apply _ | | intros ?]
  | |- preserves _ (ret _) => apply preserves_ret; try apply _
  | |- preserves _ (raise _) => apply preserves_raise; try apply _
  | |- preserves _ (lift _) => apply preserves_lift; try apply _
  | |- preserves _ (try_catch _ _) =>
      apply preserves_try_catch; [try apply _ | | intros ?]
  | |- preserves _ (when _ _) => apply preserves_when; try apply _
  | |- preserves _ (if ?b then _ else _) => destruct b
  | |- preserves _ (match ?x with _ => _ end) => destruct x
  end.

Lemma preserves_health_topics (R : state → state → Prop)
    `{!Reflexive R, !Transitive R} (xml_dict : feed) (body : health_topic → M unit) :
  (∀ ht, ht ∈ feed_health_topic xml_dict → preserves R (body ht)) →
  preserves R (bind (health_topics_of xml_dict) (fun hts => for_each hts body)).
Proof.
  intros Hb st. unfold bind, health_topics_of.
  destruct (feed_health_topic xml_dict) as [|a [|b l]] eqn:Hl; simpl;
    [reflexivity..|].
  by apply (preserves_for_each R (a :: b :: l) body).
Qed.

(** *** Trace growth *)

#[local] Instance extends_refl (P : event → Prop) : Reflexive (extends P).
Proof. intros st. exists []. by rewrite app_nil_r. Qed.

#[local] Instance extends_trans (P : event → Prop) : Transitive (extends P).
Proof.
  intros s1 s2 s3 (e1 & H1 & F1) (e2 & H2 & F2). exists (e1 ++ e2).
  rewrite H2, H1, <- app_assoc. split; [done|]. by apply Forall_app.
Qed.

Lemma extends_impl (P Q : event → Prop) (st st' : state) :
  (∀ e, P e → Q e) → extends P st st' → extends Q st st'.
Proof.
  intros HPQ (evs & H & F). exists evs. split; [done|].
  eapply Forall_impl; eauto.
Qed.

Lemma preserves_impl {A} (P Q : event → Prop) (m : M A) :
  (∀ e, P e → Q e) → preserves (extends P) m → preserves (extends Q) m.
Proof. intros HPQ Hm st. eapply extends_impl; eauto. Qed.

Lemma extends_emit (P : event → Prop) (e : event) (st : state) :
  P e → extends P st (emit e st).
Proof. intros He. exists [e]. split; [done|]. by constructor. Qed.

Lemma extends_same_trace (P : event → Prop) (st st' : state) :
  trace st' = trace st → extends P st st'.
Proof. intros H. exists []. by rewrite app_nil_r. Qed.

Lemma extends_logging_info (P : event → Prop) (msg : string) :
  P (EvLog msg) → preserves (extends P) (logging_info msg).
Proof. intros H st. by apply extends_emit. Qed.

Lemma extends_requests_get (P : event → Prop) W lim url params :
  P (EvGet lim url params) → preserves (extends P) (requests_get W lim url params).
Proof.
  intros H st. unfold requests_get.
  destruct (w_get _ _ _ _); simpl; by apply extends_emit.
Qed.

Lemma extends_index_document (P : event → Prop) W d :
  P (EvIndexDocument d) → preserves (extends P) (index_document W d).
Proof. intros H st. by apply extends_emit. Qed.

Lemma extends_index_url (P : event → Prop) W lim url md :
  P (EvIndexUrl lim url md) → preserves (extends P) (index_url W lim url md).
Proof. intros H st. by apply extends_emit. Qed.

Lemma extends_silent {A} (P : event → Prop) (m : M A) :
  (∀ st, trace (final (m st)) = trace st) → preserves (extends P) m.
Proof. intros H st. by apply extends_same_trace. Qed.

(** *** The events of each procedure *)

Lemma paper_body_body_events W topic rl ip :
  preserves (extends (body_event rl ip.2)) (paper_body W topic rl ip).
Proof.
  unfold paper_body, log_progress. pres_step.
  { pres_step. by apply extends_logging_info. }
  pres_step. { by apply extends_silent. }
  pres_step; [pres_step|].
  pres_step.
  { unfold fetch_paper. pres_step.
    - pres_step.
      + pres_step; [|pres_step]. apply extends_requests_get. by simpl.
      + pres_step; [|pres_step]. by apply extends_logging_info.
    - pres_step; [|pres_step]. pres_step; [|pres_step].
      pres_step; [|pres_step]. by apply extends_logging_info. }
  pres_step; [|pres_step].
  intros st. unfold extract_and_mark, index_and_report, bind, lift, ret, raise.
  destruct (w_fromstring W (resp_text r)) as [root|e]; simpl; [|reflexivity].
  destruct (extract_pub_date root) as [pd|e] eqn:Hpd; simpl; [|reflexivity].
  match goal with |- context [negb ?b] => destruct b end; simpl.
  - eexists [_; _]. split; [simpl; by rewrite <- !app_assoc|].
    repeat constructor; simpl; eauto.
  - eexists [_; _; _]. split; [simpl; by rewrite <- !app_assoc|].
    repeat constructor; simpl; eauto.
Qed.

Lemma body_event_paper (rl : rate_limiter) (x : string) (e : event) :
  body_event rl x e → paper_event rl e.
Proof.
  destruct e; simpl; try done.
  - intros (-> & -> & ->). eauto.
  - intros (root & pd & Hpd & ->). eauto.
Qed.

Lemma paper_body_events W topic rl ip :
  preserves (extends (paper_event rl)) (paper_body W topic rl ip).
Proof.
  eapply preserves_impl; [apply body_event_paper|apply paper_body_body_events].
Qed.

Lemma medline_body_events W topics rl ht :
  preserves (extends (medline_event W rl)) (medline_body W topics rl ht).
Proof.
  unfold medline_body. pres_step.
  { by apply extends_logging_info. }
  pres_step. { by apply extends_logging_info. }
  pres_step. { apply extends_index_document. simpl. eauto. }
  pres_step. { by apply extends_logging_info. }
  pres_step. { unfold sites_of. pres_step; pres_step. }
  apply preserves_for_each; [apply _..|]. intros s _.
  unfold index_site. pres_step. { by apply extends_silent. }
  pres_step; [pres_step|].
  pres_step. { by apply extends_silent. }
  pres_step; [|pres_step].
  apply extends_index_url. simpl. eauto.
Qed.

Lemma paper_event_topic (k : nat) (e : event) :
  paper_event (limiter k) e → topic_event k e.
Proof. by destruct e. Qed.

Lemma medline_event_feed W (k : nat) (e : event) :
  medline_event W (limiter k) e → feed_event W k e.
Proof. by destruct e. Qed.

Lemma index_papers_by_topic_events W topic n st :
  extends (topic_event (next_limiter st)) st (final (index_papers_by_topic W topic n st)).
Proof.
  unfold index_papers_by_topic, bind, get_top_n_papers, logging_info, RateLimiter.
  destruct (w_esearch W (trace st) topic n) as [sr|e]; simpl.
  2: { by apply extends_emit. }
  match goal with |- extends _ _ (final (for_each ?l ?b ?s)) =>
    destruct (preserves_for_each (extends (paper_event (limiter (next_limiter st))))
                l b (fun ip _ => paper_body_events W topic _ ip) s)
      as (evs & Htr & Hall)
  end.
  eexists (_ :: _ :: evs).
  split.
  - rewrite Htr. simpl. by rewrite <- !app_assoc.
  - constructor; [exact I|]. constructor; [exact I|].
    eapply Forall_impl; [exact Hall|]. apply paper_event_topic.
Qed.

Lemma index_medline_plus_events W topics st :
  extends (feed_event W (next_limiter st)) st (final (index_medline_plus W topics st)).
Proof.
  unfold index_medline_plus, bind, datetime_today, requests_get, raise_for_status,
    logging_info, RateLimiter, lift, ret, raise.
  destruct (w_get W (trace st) _ []) as [resp|e]; simpl.
  2: { by apply extends_emit. }
  destruct (bool_decide _); simpl; [by apply extends_emit|].
  destruct (w_xmltodict_parse W (resp_text resp)) as [xml_dict|e]; simpl;
    [|by apply extends_emit].
  match goal with |- context [health_topics_of ?x ?s] =>
    trans s;
      [|apply (extends_impl (medline_event W (limiter (next_limiter st))));
         [intros e; apply medline_event_feed|];
         exact (preserves_health_topics
                  (extends (medline_event W (limiter (next_limiter st)))) x
                  (medline_body W topics (limiter (next_limiter st)))
                  (fun ht _ => medline_body_events W topics _ ht) s)]
  end.
  eexists [_; _]. split; [simpl; by rewrite <- !app_assoc|].
  constructor; [by simpl|]. constructor; [exact I|constructor].
Qed.

Lemma crawl_events W cfg : preserves (extends (crawl_event W)) (crawl W cfg).
Proof.
  unfold crawl. pres_step.
  { intros st. by apply extends_emit. }
  pres_step.
  { intros st. eapply extends_impl; [|apply index_medline_plus_events].
    intros [] He; simpl in *; try done.
    - destruct He as [-> _]. by left.
    - eauto.
    - destruct He as (-> & s & -> & ->). eauto. }
  unfold crawl_papers. apply preserves_for_each; [apply _..|]. intros topic _ st.
  eapply extends_impl; [|apply index_papers_by_topic_events].
  intros [] He; simpl in *; try done.
  - destruct He as (-> & _). eauto.
  - eauto.
Qed.

(** *** Components left alone *)

#[local] Instance frame_refl {X} (f : state → X) : Reflexive (frame f).
Proof. by intros st. Qed.

#[local] Instance frame_trans {X} (f : state → X) : Transitive (frame f).
Proof. intros s1 s2 s3 H1 H2. unfold frame in *. congruence. Qed.

Ltac frame_prim :=
  let st := fresh "st" in
  intros st; unfold frame;
  first
    [ solve [auto]
    | cbv [logging_info requests_get index_document index_url seen_pmc_id
           add_pmc_id seen_site_url add_site_url sites_of ret raise
           get_top_n_papers os_makedirs datetime_today raise_for_status
           health_topics_of];
      repeat case_match; simpl; auto ].

Ltac pres_frame := repeat first [ pres_step | frame_prim ].

Section Frame.
Context {X} (f : state → X).
Hypothesis f_emit : ∀ e st, f (emit e st) = f st.

Lemma paper_body_frame W topic rl ip :
  (∀ pmc_id st, f (final (add_pmc_id pmc_id st)) = f st) →
  preserves (frame f) (paper_body W topic rl ip).
Proof.
  intros f_add.
  unfold paper_body, log_progress, fetch_paper, extract_and_mark, index_and_report.
  pres_frame.
Qed.

Lemma medline_body_frame W topics rl ht :
  (∀ u st, f (final (add_site_url u st)) = f st) →
  preserves (frame f) (medline_body W topics rl ht).
Proof.
  intros f_add. unfold medline_body. pres_frame.
  apply preserves_for_each; [apply _..|]. intros s _.
  unfold index_site. pres_frame.
Qed.
End Frame.

Lemma index_papers_by_topic_limiter W topic n st st' :
  index_papers_by_topic W topic n st = Returned tt st' →
  next_limiter st' = S (next_limiter st).
Proof.
  unfold index_papers_by_topic, bind, get_top_n_papers, logging_info, RateLimiter.
  destruct (w_esearch W (trace st) topic n) as [sr|e]; simpl; [|discriminate].
  intros Heq.
  match type of Heq with for_each ?l ?b ?s = _ =>
    pose proof (preserves_for_each (frame next_limiter) l b
                  (fun ip _ => paper_body_frame next_limiter (fun _ _ => eq_refl)
                                 W topic _ ip (fun _ _ => eq_refl)) s) as Hf
  end.
  rewrite Heq in Hf. exact Hf.
Qed.

Lemma index_medline_plus_limiter W topics st st' :
  index_medline_plus W topics st = Returned tt st' →
  next_limiter st' = S (next_limiter st).
Proof.
  unfold index_medline_plus, bind, datetime_today, requests_get, raise_for_status,
    logging_info, RateLimiter, lift, ret, raise.
  destruct (w_get W (trace st) _ []) as [resp|e]; simpl; [|discriminate].
  destruct (bool_decide _); simpl; [discriminate|].
  destruct (w_xmltodict_parse W (resp_text resp)) as [xml_dict|e]; simpl;
    [|discriminate].
  intros Heq.
  match type of Heq with context [health_topics_of ?x ?s] =>
    set (run := bind (health_topics_of x)
                  (fun hts => for_each hts
                                (medline_body W topics (limiter (next_limiter st)))) s);
    assert (Hf : frame next_limiter s (final run))
      by (apply preserves_health_topics; [apply _..|]; intros ht _;
          by apply medline_body_frame)
  end.
  assert (Hrun : run = Returned tt st') by exact Heq.
  rewrite Hrun in Hf. exact Hf.
Qed.

Lemma index_medline_plus_ids W topics :
  preserves (frame crawled_pmc_ids) (index_medline_plus W topics).
Proof.
  unfold index_medline_plus. pres_frame.
  apply preserves_for_each; [apply _..|]. intros ht _.
  by apply medline_body_frame.
Qed.

(** ** Rate limiting *)

(** C3, as the code has it.  Each call of index_papers_by_topic builds
    its own RateLimiter(max_calls=3, period=1) and sends every paper fetch
    of that call through it; index_medline_plus builds another one for its
    site-URL indexing calls, and downloads the feed outside any limiter.  A
    call that returns has used up one limiter identity, so the next call
    works with a different object. *)
Theorem rate_limiter_per_invocation (W : World) (st : state) :
  (∀ topic n, ∃ evs,
      trace (final (index_papers_by_topic W topic n st)) = trace st ++ evs ∧
      (∀ lim url params,
         EvGet lim url params ∈ evs →
         lim = Some {| rl_id := next_limiter st; max_calls := 3; period := 1 |}) ∧
      (∀ st', index_papers_by_topic W topic n st = Returned tt st' →
              next_limiter st' = S (next_limiter st))) ∧
  (∀ topics, ∃ evs,
      trace (final (index_medline_plus W topics st)) = trace st ++ evs ∧
      (∀ lim url params, EvGet lim url params ∈ evs → lim = None) ∧
      (∀ lim url md,
         EvIndexUrl lim url md ∈ evs →
         lim = Some {| rl_id := next_limiter st; max_calls := 3; period := 1 |}) ∧
      (∀ st', index_medline_plus W topics st = Returned tt st' →
              next_limiter st' = S (next_limiter st))).
Proof.
  split.
  - intros topic n.
    destruct (index_papers_by_topic_events W topic n st) as (evs & Htr & Hall).
    exists evs. split; [done|]. split.
    + intros lim url params Hin. rewrite Forall_forall in Hall.
      apply Hall in Hin. simpl in Hin. by destruct Hin as [-> _].
    + apply index_papers_by_topic_limiter.
  - intros topics.
    destruct (index_medline_plus_events W topics st) as (evs & Htr & Hall).
    exists evs. split; [done|]. rewrite Forall_forall in Hall. repeat split.
    + intros lim url params Hin. apply Hall in Hin. simpl in Hin. by destruct Hin.
    + intros lim url md Hin. apply Hall in Hin. simpl in Hin. by destruct Hin.
    + apply index_medline_plus_limiter.
Qed.

Lemma rate_limiter_per_invocation_witness :
  Some (limiter 0) = Some (limiter (next_limiter init_state))
  ∧ next_limiter
      (final (index_papers_by_topic (sample_world true true) "diabetes" 2 init_state))
    = 1%nat
  ∧ Some (limiter 0) = Some (limiter (next_limiter init_state)).
Proof.
  destruct (rate_limiter_per_invocation (sample_world true true) init_state)
    as [Hp Hm].
  destruct (Hp "diabetes" 2) as (evs & Htr & Hget & Hnext).
  destruct (Hm ["diabetes"]) as (evs' & Htr' & _ & Hurl & _).
  change (trace init_state ++ evs) with evs in Htr. subst evs.
  change (trace init_state ++ evs') with evs' in Htr'. subst evs'.
  split; [|split].
  - apply (Hget _ base_url (fetch_params "100")). vm_compute. repeat constructor.
  - apply Hnext. vm_compute. reflexivity.
  - apply (Hurl _ "https://nih.gov/d"
             {| um_url := "https://nih.gov/d"; um_source := "medline_plus";
                um_title := "NIH" |}).
    vm_compute. repeat constructor.
Defined.

(** In a crawl over two topics the feed download goes through no limiter,
    the site links through one limiter and the paper fetches of the two
    topics through two further ones: no single instance is shared. *)
Lemma limiters_not_shared :
  let run := crawl (sample_world true true)
               {| topics := ["diabetes"; "insulin"]; n_papers := 2 |} init_state in
  limiters_used (trace (final run))
  = [None; Some (limiter 0); Some (limiter 0);
     Some (limiter 1); Some (limiter 1); Some (limiter 2)]
  ∧ ¬ ∃ L, Forall (fun l => l = Some L) (limiters_used (trace (final run))).
Proof.
  assert (Heq : limiters_used
                  (trace (final (crawl (sample_world true true)
                                   {| topics := ["diabetes"; "insulin"]; n_papers := 2 |}
                                   init_state)))
                = [None; Some (limiter 0); Some (limiter 0);
                   Some (limiter 1); Some (limiter 1); Some (limiter 2)])
    by (vm_compute; reflexivity).
  cbv zeta. split; [exact Heq|].
  rewrite Heq. intros [L HL]. inversion HL as [|? ? Hhd _]. discriminate Hhd.
Qed.

(** ** Source labels *)

(** C10. Every document that index_medline_plus hands to the indexer
    carries source "pmc", the label of paper documents, while every site
    link of the same stage is indexed with source "medline_plus"; the two
    labels differ. *)
Theorem medline_source_labels (W : World) (topics : list string) (st : state) :
  ∃ evs,
    trace (final (index_medline_plus W topics st)) = trace st ++ evs ∧
    (∀ d, EvIndexDocument d ∈ evs →
          (∃ ht, d = medline_document W ht) ∧
          md_source (metadataJson d) = "pmc" ∧
          ∀ pmc_id title pub_date root,
            md_source (metadataJson d)
            = md_source (metadataJson (paper_document pmc_id title pub_date root))) ∧
    (∀ lim url md, EvIndexUrl lim url md ∈ evs →
          um_source md = "medline_plus" ∧
          ∀ d, EvIndexDocument d ∈ evs → um_source md ≠ md_source (metadataJson d)).
Proof.
  destruct (index_medline_plus_events W topics st) as (evs & Htr & Hall).
  exists evs. split; [done|]. rewrite Forall_forall in Hall.
  assert (Hdoc : ∀ d, EvIndexDocument d ∈ evs →
                      (∃ ht, d = medline_document W ht) ∧
                      md_source (metadataJson d) = "pmc").
  { intros d Hin. apply Hall in Hin. simpl in Hin. destruct Hin as [ht ->]. eauto. }
  split.
  - intros d Hin. destruct (Hdoc d Hin) as [Hht Hsrc]. repeat split; [done..|].
    intros. by rewrite Hsrc.
  - intros lim url md Hin. apply Hall in Hin. simpl in Hin.
    destruct Hin as (_ & s & _ & ->). split; [done|].
    intros d Hd. destruct (Hdoc d Hd) as [_ ->]. simpl. discriminate.
Qed.

Lemma medline_source_labels_witness :
  md_source (metadataJson (medline_document (sample_world true true) ht_diabetes)) = "pmc"
  ∧ um_source (site_metadata {| site_title := "NIH"; site_url := "https://nih.gov/d" |})
    = "medline_plus".
Proof.
  destruct (medline_source_labels (sample_world true true) ["diabetes"] init_state)
    as (evs & Htr & Hdoc & Hurl).
  change (trace init_state ++ evs) with evs in Htr. subst evs.
  split.
  - apply Hdoc. vm_compute. repeat constructor.
  - eapply (Hurl (Some (limiter 0)) "https://nih.gov/d"). vm_compute. repeat constructor.
Defined.

(** ** Document identifiers *)

Lemma prefix_medline_plus (x : string) :
  String.prefix "medline-plus-" ("medline-plus-" +:+ x) = true.
Proof. simpl. by destruct x. Qed.

(** C6, as the code has it.  A health-topic document is identified by
    "medline-plus-" followed by the topic id; a paper document is identified
    by the bare PMC id, with no prefix.  Every document a crawl hands to the
    indexer is of one of these two kinds, and the two kinds cannot share an
    identifier as long as the PMC id does not itself begin with
    "medline-plus-". *)
Theorem document_id_namespaces (W : World) (cfg : config) (st : state) :
  (∃ evs,
     trace (final (crawl W cfg st)) = trace st ++ evs ∧
     ∀ d, EvIndexDocument d ∈ evs →
       (∃ ht, d = medline_document W ht ∧
              documentId d = "medline-plus-" +:+ ht_id ht ∧
              String.prefix "medline-plus-" (documentId d) = true) ∨
       (∃ pmc_id root pub_date,
              d = paper_document pmc_id (extract_title root) pub_date root ∧
              documentId d = pmc_id)) ∧
  (∀ pmc_id title pub_date root ht,
     String.prefix "medline-plus-" pmc_id = false →
     documentId (paper_document pmc_id title pub_date root)
     ≠ documentId (medline_document W ht)).
Proof.
  split.
  - destruct (crawl_events W cfg st) as (evs & Htr & Hall).
    exists evs. split; [done|]. rewrite Forall_forall in Hall.
    intros d Hin. apply Hall in Hin. simpl in Hin.
    destruct Hin as [[ht ->]|(pmc_id & root & pd & _ & ->)].
    + left. exists ht. repeat split. apply prefix_medline_plus.
    + right. by exists pmc_id, root, pd.
  - intros pmc_id title pd root ht Hpre Heq. simpl in Heq. subst pmc_id.
    by rewrite prefix_medline_plus in Hpre.
Qed.

Lemma document_id_namespaces_witness :
  documentId (paper_document "100" (Some "Insulin") (Some "2020-03-07") paper_full)
  ≠ documentId (medline_document (sample_world true true) ht_diabetes)
  ∧ String.prefix "medline-plus-"
      (documentId (medline_document (sample_world true true) ht_diabetes)) = true.
Proof.
  destruct (document_id_namespaces (sample_world true true)
              {| topics := ["diabetes"]; n_papers := 2 |} init_state)
    as [(evs & Htr & Hdoc) Hne].
  change (trace init_state ++ evs) with evs in Htr. subst evs.
  split.
  - apply Hne. reflexivity.
  - reflexivity.
Defined.

(** Paper identifiers carry no prefix of their own, and a PMC id that
    begins with "medline-plus-" gives a paper document the identifier of a
    health-topic document. *)
Lemma paper_id_not_namespaced :
  documentId (paper_document "medline-plus-7" None None paper_bare)
  = documentId (medline_document (sample_world true true) ht_diabetes)
  ∧ ¬ ∃ p, p ≠ "" ∧
         ∀ pmc_id title pub_date root,
           String.prefix p (documentId (paper_document pmc_id title pub_date root)) = true.
Proof.
  split; [reflexivity|].
  intros (p & Hp & H).
  pose proof (H "1" None None paper_bare) as H1.
  pose proof (H "2" None None paper_bare) as H2.
  destruct p as [|c p]; [done|]. simpl in H1, H2.
  destruct (ascii_dec c "1") as [->|]; [|discriminate].
  destruct (ascii_dec "1" "2"); discriminate.
Qed.

(** ** The topic filter *)

Lemma topic_matches_spec (W : World) (topics : list string) (ht : health_topic) :
  topic_matches W topics ht = true ↔
  ∃ t, t ∈ topics ∧ w_lower W t ∈ all_names W ht.
Proof.
  unfold topic_matches. rewrite existsb_exists. split.
  - intros (t & Hin & Ht). exists t. rewrite list_elem_of_In.
    by rewrite bool_decide_eq_true in Ht.
  - intros (t & Hin & Ht). exists t. rewrite <- list_elem_of_In.
    by rewrite bool_decide_eq_true.
Qed.

(** C7, as the code has it.  A health topic whose also-called field is
    the single string [s] matches iff some configured topic equals, after
    lowercasing both, the topic's title or [s]; the decision is the same
    when the field is the one-element list [[s]].  The absent, single-string
    and list shapes of the field are all turned into one list of lowercase
    names headed by the lowercased title. *)
Theorem topic_filter_single_synonym (W : World) (topics : list string)
    (ht : health_topic) (s : string) :
  ht_also_called ht = Some (SynStr s) →
  (topic_matches W topics ht = true ↔
     ∃ t, t ∈ topics ∧
          (w_lower W t = w_lower W (ht_title ht) ∨ w_lower W t = w_lower W s)) ∧
  topic_matches W topics (with_also_called (Some (SynList [s])) ht)
  = topic_matches W topics ht ∧
  all_names W ht = [w_lower W (ht_title ht); w_lower W s] ∧
  all_names W (with_also_called (Some (SynList [s])) ht) = all_names W ht ∧
  all_names W (with_also_called None ht) = [w_lower W (ht_title ht)] ∧
  (∀ l, all_names W (with_also_called (Some (SynList l)) ht)
        = w_lower W (ht_title ht) :: map (w_lower W) l).
Proof.
  intros Hs.
  assert (Hn : all_names W ht = [w_lower W (ht_title ht); w_lower W s]).
  { unfold all_names. by rewrite Hs. }
  assert (Hl : all_names W (with_also_called (Some (SynList [s])) ht) = all_names W ht).
  { by rewrite Hn. }
  split; [|split; [|split; [|split; [|split]]]]; try done.
  - rewrite topic_matches_spec, Hn. split.
    + intros (t & Hin & Ht). exists t. split; [done|].
      apply list_elem_of_In in Ht. simpl in Ht. destruct Ht as [<-|[<-|[]]]; auto.
    + intros (t & Hin & [Ht|Ht]); exists t; (split; [done|]); rewrite Ht.
      * by left.
      * right. by left.
  - unfold topic_matches. by rewrite Hl.
Qed.

Lemma topic_filter_single_synonym_witness :
  topic_matches (sample_world true true) ["sugar"]
    (with_also_called (Some (SynList ["Sugar"])) ht_diabetes)
  = topic_matches (sample_world true true) ["sugar"] ht_diabetes
  ∧ all_names (sample_world true true) ht_diabetes = ["diabetes"; "sugar"].
Proof.
  destruct (topic_filter_single_synonym (sample_world true true) ["sugar"]
              ht_diabetes "Sugar" eq_refl) as (_ & H1 & H2 & _).
  split; [exact H1|exact H2].
Defined.

(** A topic whose title matches is kept although its single synonym is
    not among the configured topics. *)
Lemma topic_filter_title_match :
  ht_also_called ht_diabetes = Some (SynStr "Sugar")
  ∧ topic_matches (sample_world true true) ["diabetes"] ht_diabetes = true
  ∧ ¬ ∃ t, t ∈ ["diabetes"] ∧ lower t = lower "Sugar".
Proof.
  split; [reflexivity|]. split; [reflexivity|].
  intros (t & Hin & Heq). apply list_elem_of_In in Hin. simpl in Hin.
  destruct Hin as [<-|[]]. vm_compute in Heq. discriminate Heq.
Qed.

(** ** Step-by-step behaviour of the paper loop *)

Lemma bind_returned {A B} (m : M A) (k : A → M B) st a st' :
  m st = Returned a st' → bind m k st = k a st'.
Proof. unfold bind. by intros ->. Qed.

Lemma bind_raised {A B} (m : M A) (k : A → M B) st e st' :
  m st = Raised e st' → bind m k st = Raised e st'.
Proof. unfold bind. by intros ->. Qed.

Lemma for_each_app {A} (l1 l2 : list A) (body : A → M unit) (st : state) :
  for_each (l1 ++ l2) body st
  = match for_each l1 body st with
    | Returned _ st1 => for_each l2 body st1
    | Raised e st1 => Raised e st1
    end.
Proof.
  revert st. induction l1 as [|x l1 IH]; intros st; simpl; [done|].
  unfold bind. destruct (body x st) as [[] st1|e st1]; [apply IH|done].
Qed.

Lemma log_progress_returned (topic : string) (i : nat) (st : state) :
  log_progress topic i st = Returned tt (final (log_progress topic i st)) ∧
  extends (fun e => ∃ msg, e = EvLog msg) st (final (log_progress topic i st)) ∧
  crawled_pmc_ids (final (log_progress topic i st)) = crawled_pmc_ids st ∧
  site_urls (final (log_progress topic i st)) = site_urls st ∧
  next_limiter (final (log_progress topic i st)) = next_limiter st.
Proof.
  unfold log_progress, when. destruct (bool_decide _); simpl.
  - repeat split. apply extends_emit. eauto.
  - repeat split. reflexivity.
Qed.

Lemma paper_body_seen W topic rl i pmc_id st :
  pmc_id ∈ crawled_pmc_ids st →
  paper_body W topic rl (i, pmc_id) st = Returned tt (final (log_progress topic i st)).
Proof.
  intros Hin. unfold paper_body. simpl.
  destruct (log_progress_returned topic i st) as (Hlp & _ & Hids & _).
  rewrite (bind_returned _ _ _ _ _ Hlp).
  unfold bind, seen_pmc_id. rewrite Hids. by rewrite bool_decide_true.
Qed.

Lemma paper_body_unseen W topic rl i pmc_id st :
  pmc_id ∉ crawled_pmc_ids st →
  paper_body W topic rl (i, pmc_id) st
  = bind (fetch_paper W rl pmc_id)
      (fun r => match r with
                | None => ret tt
                | Some response =>
                    bind (extract_and_mark W pmc_id response) (index_and_report W pmc_id)
                end)
      (final (log_progress topic i st)).
Proof.
  intros Hin. unfold paper_body. simpl.
  destruct (log_progress_returned topic i st) as (Hlp & _ & Hids & _).
  rewrite (bind_returned _ _ _ _ _ Hlp).
  unfold bind at 1, seen_pmc_id. rewrite Hids. by rewrite bool_decide_false.
Qed.

Lemma fetch_paper_cases W rl pmc_id st :
  let get := EvGet (Some rl) base_url (fetch_params pmc_id) in
  match w_get W (trace st) base_url (fetch_params pmc_id) with
  | Err e =>
      ∃ msg, fetch_paper W rl pmc_id st = Returned None (emit (EvLog msg) (emit get st))
  | Ok r =>
      if bool_decide (status_code r = 200)
      then fetch_paper W rl pmc_id st = Returned (Some r) (emit get st)
      else ∃ msg, fetch_paper W rl pmc_id st
                  = Returned None (emit (EvLog msg) (emit get st))
  end.
Proof.
  unfold fetch_paper, bind, try_catch, requests_get, logging_info, ret.
  destruct (w_get W (trace st) base_url (fetch_params pmc_id)) as [r|e]; simpl.
  - destruct (decide (status_code r = 200)) as [Heq|Hne].
    + rewrite bool_decide_true by done. by rewrite bool_decide_false by tauto.
    + rewrite bool_decide_false by done. rewrite bool_decide_true by done. eauto.
  - eauto.
Qed.

Lemma extract_pub_date_total (root : element) : ∃ v, extract_pub_date root = Ok v.
Proof.
  unfold extract_pub_date. destruct (find_descendant "pub-date" root); [|eauto].
  destruct (compose_date _ _ _); simpl; [eauto|].
  destruct (find_child "year" _); eauto.
Qed.

Lemma extract_and_mark_cases W pmc_id r st :
  match w_fromstring W (resp_text r) with
  | Ok root =>
      ∃ pub_date msg,
        extract_pub_date root = Ok pub_date ∧
        extract_and_mark W pmc_id r st
        = Returned (paper_document pmc_id (extract_title root) pub_date root)
            (emit (EvLog msg) (final (add_pmc_id pmc_id st)))
  | Err e => extract_and_mark W pmc_id r st = Raised e st
  end.
Proof.
  unfold extract_and_mark, bind, lift, ret, raise, logging_info.
  destruct (w_fromstring W (resp_text r)) as [root|e]; simpl; [|done].
  destruct (extract_pub_date_total root) as [pd Hpd]. rewrite Hpd. simpl. eauto.
Qed.

Lemma index_and_report_cases W pmc_id d st :
  index_and_report W pmc_id d st
  = Returned tt
      (if w_index_document W (trace st) d
       then emit (EvIndexDocument d) st
       else emit (EvLog ("Failed to index document " +:+ pmc_id))
              (emit (EvIndexDocument d) st)).
Proof.
  unfold index_and_report, bind, index_document, logging_info, ret.
  by destruct (w_index_document W (trace st) d).
Qed.

(** ** Discovery errors *)

Lemma index_papers_by_topic_discovery_error W topic n st e :
  w_esearch W (trace st) topic n = Err e →
  index_papers_by_topic W topic n st = Raised e (emit (EvESearch email topic n) st).
Proof.
  intros He. unfold index_papers_by_topic, bind, get_top_n_papers. by rewrite He.
Qed.

(** C2, as the code has it.  An error raised by discovery for a topic is
    not caught: index_papers_by_topic raises it right after the search call,
    without logging, and crawl raises it in turn, so the topics that follow
    are never processed.  The topics before it have been processed. *)
Theorem discovery_error_propagates (W : World) (cfg : config)
    (ts1 : list string) (topic : string) (ts2 : list string)
    (st st0 st1 : state) (e : exn) :
  topics cfg = ts1 ++ topic :: ts2 →
  index_medline_plus W (topics cfg) (emit (EvMakedirs "papers") st) = Returned tt st0 →
  crawl_papers W ts1 (n_papers cfg) st0 = Returned tt st1 →
  w_esearch W (trace st1) topic (n_papers cfg) = Err e →
  index_papers_by_topic W topic (n_papers cfg) st1
  = Raised e (emit (EvESearch email topic (n_papers cfg)) st1) ∧
  crawl W cfg st = Raised e (emit (EvESearch email topic (n_papers cfg)) st1).
Proof.
  intros Hts Hfeed Hbefore Herr.
  pose proof (index_papers_by_topic_discovery_error W topic _ st1 e Herr) as Hraise.
  split; [exact Hraise|].
  unfold crawl, bind at 1, os_makedirs.
  rewrite (bind_returned _ _ _ _ _ Hfeed).
  unfold crawl_papers in *. rewrite Hts, for_each_app, Hbefore. simpl.
  by rewrite (bind_raised _ _ _ _ _ Hraise).
Qed.

Lemma discovery_error_propagates_witness :
  let W := sample_world true true in
  let cfg := {| topics := ["diabetes"; "down"; "insulin"]; n_papers := 2 |} in
  let st0 := final (index_medline_plus W (topics cfg) (emit (EvMakedirs "papers") init_state)) in
  let st1 := final (crawl_papers W ["diabetes"] 2 st0) in
  crawl W cfg init_state
  = Raised (EntrezError "unreachable") (emit (EvESearch email "down" 2) st1).
Proof.
  cbv zeta.
  eapply (discovery_error_propagates (sample_world true true)
            {| topics := ["diabetes"; "down"; "insulin"]; n_papers := 2 |}
            ["diabetes"] "down" ["insulin"]).
  - reflexivity.
  - vm_compute. reflexivity.
  - vm_compute. reflexivity.
  - vm_compute. reflexivity.
Defined.

(** A crawl whose first topic cannot be searched raises; the search is the
    last thing it does, and the second topic is never searched. *)
Lemma discovery_error_aborts_crawl :
  let run := crawl (sample_world true true)
               {| topics := ["down"; "diabetes"]; n_papers := 2 |} init_state in
  (∃ st, run = Raised (EntrezError "unreachable") st)
  ∧ searched_topics (trace (final run)) = ["down"]
  ∧ last (trace (final run)) = Some (EvESearch email "down" 2).
Proof.
  cbv zeta. split; [|split].
  - eexists. vm_compute. reflexivity.
  - vm_compute. reflexivity.
  - vm_compute. reflexivity.
Qed.

(** ** Indexing failures *)

(** C9, as the code has it.  A false result of index_document is logged
    once, the call is not repeated and nothing is raised, so the loop goes
    on with the next item.  For a health topic that is all that happens: its
    site links are not indexed and not recorded.  Whatever index_url answers
    for a new site link, the call is made once and not repeated, nothing is
    raised and the link stays recorded, so the loop goes on with the next
    one. *)
Theorem index_failure_logged_not_retried (W : World) :
  (∀ pmc_id d st,
     w_index_document W (trace st) d = false →
     index_and_report W pmc_id d st
     = Returned tt (emit (EvLog ("Failed to index document " +:+ pmc_id))
                      (emit (EvIndexDocument d) st))) ∧
  (∀ topics rl ht st,
     topic_matches W topics ht = true →
     let st1 := emit (EvLog ("Indexing data about " +:+ ht_title ht)) st in
     w_index_document W (trace st1) (medline_document W ht) = false →
     medline_body W topics rl ht st
     = Returned tt (emit (EvLog ("Failed to index document " +:+ ht_title ht))
                      (emit (EvIndexDocument (medline_document W ht)) st1))) ∧
  (∀ rl s st,
     site_url s ∉ site_urls st →
     ∃ st' evs,
       index_site W rl s st = Returned tt st' ∧
       trace st' = trace st ++ evs ∧
       indexed_urls evs = [site_url s] ∧
       site_urls st' = {[site_url s]} ∪ site_urls st).
Proof.
  split; [|split].
  - intros pmc_id d st Hf. by rewrite index_and_report_cases, Hf.
  - intros topics rl ht st Hm st1 Hf.
    unfold medline_body, bind, logging_info, index_document. rewrite Hm. simpl.
    subst st1. simpl in Hf. by rewrite Hf.
  - intros rl s st Hnew.
    unfold index_site, bind, seen_site_url, index_url, ret.
    rewrite bool_decide_false by done. simpl.
    eexists _, [_]. by repeat split.
Qed.

Lemma index_failure_logged_not_retried_witness :
  let W := sample_world false false in
  let d := paper_document "100" (Some "Insulin") (Some "2020-03-07") paper_full in
  let s := {| site_title := "NIH"; site_url := "https://nih.gov/d" |} in
  index_and_report W "100" d init_state
  = Returned tt (emit (EvLog "Failed to index document 100")
                   (emit (EvIndexDocument d) init_state))
  ∧ indexed_urls (trace (final (medline_body W ["diabetes"] (limiter 0) ht_diabetes
                                  init_state))) = []
  ∧ ∃ st' evs,
      index_site W (limiter 0) s init_state = Returned tt st' ∧
      trace st' = trace init_state ++ evs ∧
      indexed_urls evs = [site_url s].
Proof.
  cbv zeta.
  destruct (index_failure_logged_not_retried (sample_world false false))
    as (Hdoc & Hht & Hurl).
  split; [|split].
  - apply Hdoc. reflexivity.
  - rewrite (Hht ["diabetes"] (limiter 0) ht_diabetes init_state);
      reflexivity.
  - destruct (Hurl (limiter 0)
                {| site_title := "NIH"; site_url := "https://nih.gov/d" |} init_state)
      as (st' & evs & Hrun & Htr & Hone & _).
    { vm_compute. intros H. inversion H. }
    by exists st', evs.
Defined.

(** When a health topic's document fails to index, none of its site links
    is indexed, whereas both are when it succeeds. *)
Lemma site_links_skipped_on_failure :
  indexed_urls
    (trace (final (index_medline_plus (sample_world false true) ["diabetes"] init_state)))
  = []
  ∧ indexed_urls
      (trace (final (index_medline_plus (sample_world true true) ["diabetes"] init_state)))
    = ["https://nih.gov/d"; "https://cdc.gov/d"].
Proof. split; vm_compute; reflexivity. Qed.

(** ** Marking papers as seen *)

(** C5. For a paper id not seen so far, one pass of the loop body marks
    it seen exactly when its download answers 200 and parses.  A failed
    download (transport error or another status) is logged and the body
    returns with the seen set as it was, no index call made.  After a
    successful extraction the id is in the seen set of the very state from
    which index_document is called, and stays there whatever the indexer
    answers.  Once seen, a later pass for the same id returns after the
    progress log, without download or index call. *)
Theorem seen_marked_on_extraction (W : World) (topic : string) (rl : rate_limiter)
    (i : nat) (pmc_id : string) (st : state) :
  pmc_id ∉ crawled_pmc_ids st →
  let st0 := final (log_progress topic i st) in
  let get := w_get W (trace st0) base_url (fetch_params pmc_id) in
  let fetched := emit (EvGet (Some rl) base_url (fetch_params pmc_id)) st0 in
  let out := paper_body W topic rl (i, pmc_id) st in
  ((∃ e, get = Err e) ∨ (∃ r, get = Ok r ∧ status_code r ≠ 200) →
     (∃ msg, out = Returned tt (emit (EvLog msg) fetched)) ∧
     crawled_pmc_ids (final out) = crawled_pmc_ids st) ∧
  (∀ r root,
     get = Ok r → status_code r = 200 → w_fromstring W (resp_text r) = Ok root →
     ∃ d msg,
       let marked := emit (EvLog msg) (final (add_pmc_id pmc_id fetched)) in
       extract_and_mark W pmc_id r fetched = Returned d marked ∧
       pmc_id ∈ crawled_pmc_ids marked ∧
       out = index_and_report W pmc_id d marked ∧
       (∃ st', out = Returned tt st') ∧
       crawled_pmc_ids (final out) = {[pmc_id]} ∪ crawled_pmc_ids st) ∧
  (pmc_id ∈ crawled_pmc_ids (final out) ↔
     ∃ r root, get = Ok r ∧ status_code r = 200 ∧ w_fromstring W (resp_text r) = Ok root) ∧
  (∀ topic' rl' j st2,
     pmc_id ∈ crawled_pmc_ids st2 →
     paper_body W topic' rl' (j, pmc_id) st2
     = Returned tt (final (log_progress topic' j st2)) ∧
     extends (fun e => ∃ msg, e = EvLog msg) st2 (final (log_progress topic' j st2))).
Proof.
  intros Hnew st0 get fetched out.
  destruct (log_progress_returned topic i st) as (_ & _ & Hids0 & _).
  fold st0 in Hids0.
  assert (Hout : out = bind (fetch_paper W rl pmc_id)
                         (fun r => match r with
                                   | None => ret tt
                                   | Some response =>
                                       bind (extract_and_mark W pmc_id response)
                                         (index_and_report W pmc_id)
                                   end) st0)
    by (by apply paper_body_unseen).
  assert (Hfetch :
    match get with
    | Err e =>
        ∃ msg, fetch_paper W rl pmc_id st0 = Returned None (emit (EvLog msg) fetched)
    | Ok r =>
        if bool_decide (status_code r = 200)
        then fetch_paper W rl pmc_id st0 = Returned (Some r) fetched
        else ∃ msg, fetch_paper W rl pmc_id st0
                    = Returned None (emit (EvLog msg) fetched)
    end) by apply fetch_paper_cases.
  clearbody out get st0.
  assert (Hfail : (∃ e, get = Err e) ∨ (∃ r, get = Ok r ∧ status_code r ≠ 200) →
            (∃ msg, out = Returned tt (emit (EvLog msg) fetched)) ∧
            crawled_pmc_ids (final out) = crawled_pmc_ids st).
  { intros Hcase.
    assert (∃ msg, fetch_paper W rl pmc_id st0
                   = Returned None (emit (EvLog msg) fetched)) as [msg Hmsg].
    { destruct Hcase as [[e He]|(r & Hr & Hne)].
      - by rewrite He in Hfetch.
      - rewrite Hr in Hfetch. by rewrite bool_decide_false in Hfetch. }
    rewrite Hout, (bind_returned _ _ _ _ _ Hmsg). split; [by exists msg|done]. }
  assert (Hok : ∀ r root,
     get = Ok r → status_code r = 200 → w_fromstring W (resp_text r) = Ok root →
     ∃ d msg,
       let marked := emit (EvLog msg) (final (add_pmc_id pmc_id fetched)) in
       extract_and_mark W pmc_id r fetched = Returned d marked ∧
       pmc_id ∈ crawled_pmc_ids marked ∧
       out = index_and_report W pmc_id d marked ∧
       (∃ st', out = Returned tt st') ∧
       crawled_pmc_ids (final out) = {[pmc_id]} ∪ crawled_pmc_ids st).
  { intros r root Hr H200 Hroot.
    rewrite Hr in Hfetch. rewrite bool_decide_true in Hfetch by done.
    pose proof (extract_and_mark_cases W pmc_id r fetched) as Hex.
    rewrite Hroot in Hex. destruct Hex as (pd & msg & _ & Hex).
    eexists _, msg. cbv zeta. split; [exact Hex|].
    assert (Hrun : out = index_and_report W pmc_id
                           (paper_document pmc_id (extract_title root) pd root)
                           (emit (EvLog msg) (final (add_pmc_id pmc_id fetched)))).
    { rewrite Hout, (bind_returned _ _ _ _ _ Hfetch).
      by rewrite (bind_returned _ _ _ _ _ Hex). }
    split; [simpl; apply elem_of_union; left; by apply elem_of_singleton|].
    split; [exact Hrun|].
    rewrite Hrun, index_and_report_cases. split; [eauto|].
    subst fetched. destruct (w_index_document _ _ _); simpl; by rewrite Hids0. }
  split; [exact Hfail|]. split; [exact Hok|]. split.
  - split.
    + intros Hin. destruct get as [r|e] eqn:Hget.
      * destruct (decide (status_code r = 200)) as [H200|Hne].
        -- destruct (w_fromstring W (resp_text r)) as [root|e] eqn:Hroot; [eauto|].
           exfalso. rewrite bool_decide_true in Hfetch by done.
           pose proof (extract_and_mark_cases W pmc_id r fetched) as Hex.
           rewrite Hroot in Hex.
           rewrite Hout, (bind_returned _ _ _ _ _ Hfetch),
             (bind_raised _ _ _ _ _ Hex) in Hin.
           simpl in Hin. by rewrite Hids0 in Hin.
        -- exfalso. destruct Hfail as [_ Hsame]; [right; eauto|].
           by rewrite Hsame in Hin.
      * exfalso. destruct Hfail as [_ Hsame]; [left; eauto|].
        by rewrite Hsame in Hin.
    + intros (r & root & Hr & H200 & Hroot).
      destruct (Hok r root Hr H200 Hroot) as (_ & _ & _ & _ & _ & _ & ->).
      apply elem_of_union; left; by apply elem_of_singleton.
  - intros topic' rl' j st2 Hin. split; [by apply paper_body_seen|].
    apply log_progress_returned.
Qed.

Lemma seen_marked_on_extraction_witness :
  let W := sample_world false true in
  let rl := limiter 0 in
  crawled_pmc_ids (final (paper_body W "diabetes" rl (0%nat, "101") init_state)) = ∅
  ∧ crawled_pmc_ids (final (paper_body W "diabetes" rl (0%nat, "100") init_state))
    = {[ "100" ]} ∪ ∅
  ∧ paper_body W "insulin" rl (1%nat, "100")
      (final (paper_body W "diabetes" rl (0%nat, "100") init_state))
    = Returned tt (final (paper_body W "diabetes" rl (0%nat, "100") init_state)).
Proof.
  cbv zeta.
  assert (Hnew : ∀ x : string, x ∉ crawled_pmc_ids init_state)
    by (intros x Hx; simpl in Hx; by apply not_elem_of_empty in Hx).
  split; [|split].
  - destruct (seen_marked_on_extraction (sample_world false true) "diabetes"
                (limiter 0) 0 "101" init_state (Hnew _)) as (Hfail & _).
    apply Hfail. right. eexists. split; [vm_compute; reflexivity|].
    simpl. discriminate.
  - destruct (seen_marked_on_extraction (sample_world false true) "diabetes"
                (limiter 0) 0 "100" init_state (Hnew _)) as (_ & Hok & _).
    destruct (Hok {| status_code := 200; resp_text := "<article/>" |} paper_full)
      as (_ & _ & _ & _ & _ & _ & Hids); [reflexivity..|].
    exact Hids.
  - destruct (seen_marked_on_extraction (sample_world false true) "diabetes"
                (limiter 0) 0 "100" init_state (Hnew _)) as (_ & _ & Hiff & Hskip).
    apply Hskip. apply Hiff.
    exists {| status_code := 200; resp_text := "<article/>" |}, paper_full.
    repeat split; reflexivity.
Defined.

(** ** Deduplication *)

Lemma count_app (p : event → bool) (l1 l2 : list event) :
  count p (l1 ++ l2) = (count p l1 + count p l2)%nat.
Proof. induction l1 as [|e l1 IH]; simpl; [done|]. rewrite IH. lia. Qed.

Lemma count_none (p : event → bool) (l : list event) :
  Forall (fun e => p e = false) l → count p l = 0%nat.
Proof. induction 1 as [|e l He _ IH]; simpl; [done|]. by rewrite He, IH. Qed.

#[local] Instance dedup_rel_refl (x : string) : Reflexive (dedup_rel x).
Proof. by intros st f0 i0. Qed.

#[local] Instance dedup_rel_trans (x : string) : Transitive (dedup_rel x).
Proof. intros s1 s2 s3 H1 H2 f0 i0 H. by apply H2, H1. Qed.

#[local] Instance ids_grow_refl : Reflexive ids_grow.
Proof. intros st. unfold ids_grow. reflexivity. Qed.

#[local] Instance ids_grow_trans : Transitive ids_grow.
Proof. intros s1 s2 s3 H1 H2. unfold ids_grow in *. by etrans. Qed.

#[local] Instance ids_except_refl (x : string) : Reflexive (ids_except x).
Proof. by intros st y Hy. Qed.

#[local] Instance ids_except_trans (x : string) : Transitive (ids_except x).
Proof. intros s1 s2 s3 H1 H2 y Hy. rewrite (H2 y Hy). by apply H1. Qed.

Lemma dedup_rel_unrelated (pmc_id : string) (st st' : state) :
  extends (unrelated pmc_id) st st' →
  (pmc_id ∈ crawled_pmc_ids st' ↔ pmc_id ∈ crawled_pmc_ids st) →
  dedup_rel pmc_id st st'.
Proof.
  intros (evs & Htr & Hall) Hids f0 i0 Hinv.
  assert (Hf : count (is_fetch_of pmc_id) (trace st') = count (is_fetch_of pmc_id) (trace st)).
  { rewrite Htr, count_app, (count_none _ evs); [lia|].
    eapply Forall_impl; [exact Hall|]. by intros e [? ?]. }
  assert (Hi : count (is_index_of pmc_id) (trace st') = count (is_index_of pmc_id) (trace st)).
  { rewrite Htr, count_app, (count_none _ evs); [lia|].
    eapply Forall_impl; [exact Hall|]. by intros e [? ?]. }
  unfold dedup_inv in *. rewrite Hf, Hi, Hids. exact Hinv.
Qed.

Lemma fetch_params_inj (x y : string) : fetch_params x = fetch_params y → x = y.
Proof. unfold fetch_params. by intros [= ->]. Qed.

Lemma body_event_unrelated (rl : rate_limiter) (x pmc_id : string) (e : event) :
  x ≠ pmc_id → body_event rl x e → unrelated pmc_id e.
Proof.
  intros Hne. destruct e; simpl; try done.
  - intros (_ & _ & ->). split; [|done]. simpl.
    apply bool_decide_eq_false. intros [_ Heq]. by apply fetch_params_inj in Heq.
  - intros (root & pd & _ & ->). split; [done|]. simpl.
    apply bool_decide_eq_false. by intros [Heq _].
Qed.

Lemma paper_body_ids_except W topic rl ip :
  preserves (ids_except ip.2) (paper_body W topic rl ip).
Proof.
  assert (Hsame : ∀ st st' : state,
            crawled_pmc_ids st' = crawled_pmc_ids st → ids_except ip.2 st st').
  { intros st st' Heq y _. by rewrite Heq. }
  unfold paper_body, log_progress, fetch_paper, extract_and_mark, index_and_report.
  repeat first
    [ pres_step
    | (intros st; apply Hsame;
       cbv [logging_info requests_get index_document seen_pmc_id ret raise];
       repeat case_match; reflexivity) ].
  intros st y Hy. simpl. rewrite elem_of_union, elem_of_singleton. tauto.
Qed.

Lemma paper_body_ids_grow W topic rl ip :
  preserves ids_grow (paper_body W topic rl ip).
Proof.
  assert (Hsame : ∀ st st' : state,
            crawled_pmc_ids st' = crawled_pmc_ids st → ids_grow st st').
  { intros st st' Heq. unfold ids_grow. by rewrite Heq. }
  unfold paper_body, log_progress, fetch_paper, extract_and_mark, index_and_report.
  repeat first
    [ pres_step
    | (intros st; apply Hsame;
       cbv [logging_info requests_get index_document seen_pmc_id ret raise];
       repeat case_match; reflexivity) ].
  intros st. unfold ids_grow. simpl. apply union_subseteq_r.
Qed.

Lemma paper_body_success W topic rl i pmc_id st :
  pmc_id ∉ crawled_pmc_ids st →
  fetch_succeeds W pmc_id →
  ∃ d msg (b : bool),
    documentId d = pmc_id ∧ description d = "" ∧
    let st0 := final (log_progress topic i st) in
    let fetched := emit (EvGet (Some rl) base_url (fetch_params pmc_id)) st0 in
    let marked := emit (EvLog msg) (final (add_pmc_id pmc_id fetched)) in
    paper_body W topic rl (i, pmc_id) st
    = Returned tt
        (if b then emit (EvIndexDocument d) marked
         else emit (EvLog ("Failed to index document " +:+ pmc_id))
                (emit (EvIndexDocument d) marked)).
Proof.
  intros Hnew Hok.
  destruct (Hok (trace (final (log_progress topic i st))))
    as (r & root & Hget & H200 & Hroot).
  pose proof (fetch_paper_cases W rl pmc_id (final (log_progress topic i st))) as Hf.
  cbv zeta in Hf. rewrite Hget in Hf. rewrite bool_decide_true in Hf by done.
  pose proof (extract_and_mark_cases W pmc_id r
                (emit (EvGet (Some rl) base_url (fetch_params pmc_id))
                   (final (log_progress topic i st)))) as Hex.
  rewrite Hroot in Hex. destruct Hex as (pd & msg & _ & Hex).
  eexists _, msg, _. split; [|split]; [| |cbv zeta].
  3: { rewrite paper_body_unseen by done.
       rewrite (bind_returned _ _ _ _ _ Hf), (bind_returned _ _ _ _ _ Hex).
       apply index_and_report_cases. }
  all: reflexivity.
Qed.

Lemma paper_body_dedup W topic rl ip pmc_id :
  fetch_succeeds W pmc_id →
  preserves (dedup_rel pmc_id) (paper_body W topic rl ip).
Proof.
  intros Hok st. destruct ip as [i x].
  destruct (decide (x = pmc_id)) as [->|Hne].
  - destruct (decide (pmc_id ∈ crawled_pmc_ids st)) as [Hin|Hnew].
    + rewrite paper_body_seen by done. simpl.
      destruct (log_progress_returned topic i st) as (_ & Hext & Hids & _).
      apply dedup_rel_unrelated; [|by rewrite Hids].
      eapply extends_impl; [|exact Hext]. by intros e [msg ->].
    + destruct (paper_body_success W topic rl i pmc_id st Hnew Hok)
        as (d & msg & b & Hid & Hdesc & Hrun).
      cbv zeta in Hrun. rewrite Hrun. clear Hrun.
      destruct (log_progress_returned topic i st) as (_ & Hext & Hids & _).
      destruct Hext as (logs & Htr & Hlogs).
      assert (Hcf : count (is_fetch_of pmc_id) logs = 0%nat).
      { apply count_none. eapply Forall_impl; [exact Hlogs|]. by intros e [m ->]. }
      assert (Hci : count (is_index_of pmc_id) logs = 0%nat).
      { apply count_none. eapply Forall_impl; [exact Hlogs|]. by intros e [m ->]. }
      assert (Hfe : is_fetch_of pmc_id (EvGet (Some rl) base_url (fetch_params pmc_id)) = true)
        by (simpl; by apply bool_decide_eq_true).
      assert (Hie : is_index_of pmc_id (EvIndexDocument d) = true)
        by (simpl; by apply bool_decide_eq_true).
      intros f0 i0 [(_ & Hf0 & Hi0)|(Hin & _)]; [|done].
      right. split; [|split].
      * destruct b; simpl; apply elem_of_union; left; by apply elem_of_singleton.
      * destruct b; cbn [trace emit final add_pmc_id]; rewrite Htr, !count_app;
          cbn [count]; rewrite Hcf, Hf0, Hfe; simpl; lia.
      * destruct b; cbn [trace emit final add_pmc_id]; rewrite Htr, !count_app;
          cbn [count]; rewrite Hci, Hi0, Hie; simpl; lia.
  - apply dedup_rel_unrelated.
    + eapply extends_impl; [|apply paper_body_body_events].
      intros e. by apply body_event_unrelated.
    + by apply (paper_body_ids_except W topic rl (i, x) st).
Qed.

Lemma index_papers_by_topic_dedup W topic n pmc_id :
  fetch_succeeds W pmc_id →
  preserves (dedup_rel pmc_id) (index_papers_by_topic W topic n).
Proof.
  intros Hok st.
  unfold index_papers_by_topic, bind, get_top_n_papers, logging_info, RateLimiter.
  destruct (w_esearch W (trace st) topic n) as [sr|e]; simpl.
  2: { apply dedup_rel_unrelated; [|done]. by apply extends_emit. }
  match goal with |- dedup_rel _ _ (final (for_each ?l ?b ?s)) =>
    trans s; [|apply (preserves_for_each (dedup_rel pmc_id) l b
                        (fun ip _ => paper_body_dedup W topic _ ip pmc_id Hok) s)]
  end.
  apply dedup_rel_unrelated; [|done].
  eexists [_; _]. split; [simpl; by rewrite <- !app_assoc|].
  repeat constructor.
Qed.

Lemma feed_event_unrelated W (k : nat) (pmc_id : string) (e : event) :
  feed_event W k e → unrelated pmc_id e.
Proof.
  destruct e; simpl; try done.
  - intros [_ ->]. split; [|done]. simpl. apply bool_decide_eq_false.
    by intros [_ Heq].
  - intros [ht ->]. split; [done|]. simpl. apply bool_decide_eq_false.
    by intros [_ Heq].
Qed.

Lemma crawl_dedup W cfg pmc_id :
  fetch_succeeds W pmc_id →
  preserves (dedup_rel pmc_id) (crawl W cfg).
Proof.
  intros Hok. unfold crawl. pres_step.
  { intros st. apply dedup_rel_unrelated; [|done]. by apply extends_emit. }
  pres_step.
  { intros st. apply dedup_rel_unrelated.
    - eapply extends_impl; [|apply index_medline_plus_events].
      intros e. apply feed_event_unrelated.
    - by rewrite (index_medline_plus_ids W (topics cfg) st). }
  unfold crawl_papers. apply preserves_for_each; [apply _..|]. intros topic _.
  by apply index_papers_by_topic_dedup.
Qed.

Lemma for_each_stable {A} (Q : state → Prop) (l : list A) (body : A → M unit) :
  (∀ y s, Q s → Q (final (body y s))) →
  ∀ st, Q st → Q (final (for_each l body st)).
Proof.
  intros Hb. induction l as [|y l IH]; intros st HQ; simpl; [done|].
  unfold bind. specialize (Hb y st HQ).
  destruct (body y st) as [[] s1|e s1]; simpl in *; [by apply IH|done].
Qed.

Lemma for_each_reaches {A} (Q : state → Prop) (l : list A) (body : A → M unit) (x : A) :
  (∀ y s, Q s → Q (final (body y s))) →
  (∀ s s', body x s = Returned tt s' → Q s') →
  x ∈ l →
  ∀ st st', for_each l body st = Returned tt st' → Q st'.
Proof.
  intros Hstable Hx. induction l as [|y l IH]; intros Hin st st' Hrun.
  - by apply elem_of_nil in Hin.
  - simpl in Hrun. unfold bind in Hrun.
    destruct (body y st) as [[] s1|e s1] eqn:Hy; [|discriminate].
    apply elem_of_cons in Hin as [->|Hin].
    + pose proof (for_each_stable Q l body Hstable s1 (Hx _ _ Hy)) as HQ.
      by rewrite Hrun in HQ.
    + by apply (IH Hin s1).
Qed.

Lemma index_papers_by_topic_ids_grow W topic n :
  preserves ids_grow (index_papers_by_topic W topic n).
Proof.
  intros st.
  unfold index_papers_by_topic, bind, get_top_n_papers, logging_info, RateLimiter.
  destruct (w_esearch W (trace st) topic n) as [sr|e]; simpl;
    [|unfold ids_grow; simpl; reflexivity].
  match goal with |- ids_grow _ (final (for_each ?l ?b ?s)) =>
    trans s; [unfold ids_grow; simpl; reflexivity
             |apply (preserves_for_each ids_grow l b
                       (fun ip _ => paper_body_ids_grow W topic _ ip) s)]
  end.
Qed.

Lemma paper_body_marks W topic rl i pmc_id st st' :
  fetch_succeeds W pmc_id →
  paper_body W topic rl (i, pmc_id) st = Returned tt st' →
  pmc_id ∈ crawled_pmc_ids st'.
Proof.
  intros Hok Hrun.
  destruct (decide (pmc_id ∈ crawled_pmc_ids st)) as [Hin|Hnew].
  - rewrite paper_body_seen in Hrun by done. injection Hrun as <-.
    destruct (log_progress_returned topic i st) as (_ & _ & Hids & _).
    by rewrite Hids.
  - destruct (paper_body_success W topic rl i pmc_id st Hnew Hok)
      as (d & msg & b & _ & _ & Heq).
    cbv zeta in Heq. rewrite Heq in Hrun. injection Hrun as <-.
    destruct b; simpl; apply elem_of_union; left; by apply elem_of_singleton.
Qed.

Lemma index_papers_by_topic_marks W topic n pmc_id st st' :
  list_set_spec (w_list_set W) →
  fetch_succeeds W pmc_id →
  discovered W topic n pmc_id →
  index_papers_by_topic W topic n st = Returned tt st' →
  pmc_id ∈ crawled_pmc_ids st'.
Proof.
  intros Hset Hok Hdisc.
  unfold index_papers_by_topic, bind, get_top_n_papers, logging_info, RateLimiter.
  destruct (Hdisc (trace st)) as (sr & -> & Hin). simpl. intros Hrun.
  destruct (Hset (IdList sr)) as [_ Hmem]. apply Hmem in Hin.
  apply list_elem_of_lookup in Hin as [i Hi].
  apply (elem_of_lookup_imap_2 pair) in Hi.
  eapply (for_each_reaches (fun s => pmc_id ∈ crawled_pmc_ids s)); [| |exact Hi|exact Hrun].
  - intros ip s Hs. by apply (paper_body_ids_grow W topic _ ip s).
  - intros s s'. by apply paper_body_marks.
Qed.

Lemma crawl_marks W cfg topic pmc_id st st' :
  list_set_spec (w_list_set W) →
  fetch_succeeds W pmc_id →
  topic ∈ topics cfg →
  discovered W topic (n_papers cfg) pmc_id →
  crawl W cfg st = Returned tt st' →
  pmc_id ∈ crawled_pmc_ids st'.
Proof.
  intros Hset Hok Hin Hdisc. unfold crawl, bind at 1, os_makedirs. unfold bind.
  destruct (index_medline_plus _ _ _) as [[] s0|e s0]; [|discriminate].
  unfold crawl_papers. intros Hrun.
  eapply (for_each_reaches (fun s => pmc_id ∈ crawled_pmc_ids s)); [| |exact Hin|exact Hrun].
  - intros t s Hs. by apply (index_papers_by_topic_ids_grow W t _ s).
  - intros s s'. by apply index_papers_by_topic_marks.
Qed.

(** C4. Take a paper whose download always answers 200 with a payload
    that parses, not yet seen when the crawl starts.  The crawl downloads it
    at most once and hands a document for it to the indexer exactly as often
    as it downloads it, however many times discovery returns its id, within
    one topic or across topics; it is downloaded exactly when it ends up
    seen.  If the crawl returns and discovery for some configured topic
    returns the id, there is exactly one download and exactly one index
    call for it. *)
Theorem dedup_one_fetch_one_index (W : World) (cfg : config) (st : state)
    (pmc_id : string) :
  list_set_spec (w_list_set W) →
  fetch_succeeds W pmc_id →
  pmc_id ∉ crawled_pmc_ids st →
  ∃ evs,
    trace (final (crawl W cfg st)) = trace st ++ evs ∧
    count (is_index_of pmc_id) evs = count (is_fetch_of pmc_id) evs ∧
    (count (is_fetch_of pmc_id) evs ≤ 1)%nat ∧
    (count (is_fetch_of pmc_id) evs = 1%nat ↔
       pmc_id ∈ crawled_pmc_ids (final (crawl W cfg st))) ∧
    (∀ topic st',
       topic ∈ topics cfg →
       discovered W topic (n_papers cfg) pmc_id →
       crawl W cfg st = Returned tt st' →
       count (is_fetch_of pmc_id) evs = 1%nat ∧
       count (is_index_of pmc_id) evs = 1%nat).
Proof.
  intros Hset Hok Hnew.
  destruct (crawl_events W cfg st) as (evs & Htr & _).
  exists evs. split; [exact Htr|].
  pose proof (crawl_dedup W cfg pmc_id Hok st _ _ (or_introl (conj Hnew (conj eq_refl eq_refl))))
    as Hinv.
  unfold dedup_inv in Hinv. rewrite Htr, !count_app in Hinv.
  assert (Hcases :
    ((pmc_id ∉ crawled_pmc_ids (final (crawl W cfg st))) ∧
     count (is_fetch_of pmc_id) evs = 0%nat ∧ count (is_index_of pmc_id) evs = 0%nat) ∨
    (pmc_id ∈ crawled_pmc_ids (final (crawl W cfg st)) ∧
     count (is_fetch_of pmc_id) evs = 1%nat ∧ count (is_index_of pmc_id) evs = 1%nat)).
  { destruct Hinv as [(H1 & H2 & H3)|(H1 & H2 & H3)]; [left|right];
      (split; [done|]); lia. }
  clear Hinv. split; [|split; [|split; [split|]]].
  - destruct Hcases as [(_ & -> & ->)|(_ & -> & ->)]; done.
  - destruct Hcases as [(_ & -> & _)|(_ & -> & _)]; lia.
  - intros Hone. destruct Hcases as [(_ & Hzero & _)|(Hin & _)]; [lia|done].
  - intros Hin. destruct Hcases as [(Hout & _)|(_ & Hone & _)]; done.
  - intros topic st' Htopic Hdisc Hrun.
    destruct Hcases as [(Hout & _)|(_ & Hf & Hi)]; [|done].
    exfalso. apply Hout. rewrite Hrun. simpl.
    by apply (crawl_marks W cfg topic pmc_id st st').
Qed.

Lemma remove_dups_list_set : list_set_spec remove_dups.
Proof.
  intros l. split; [apply NoDup_remove_dups|].
  intros x. apply elem_of_remove_dups.
Qed.

Lemma sample_fetch_succeeds (doc_ok url_ok : bool) :
  fetch_succeeds (sample_world doc_ok url_ok) "100".
Proof.
  intros tr. exists {| status_code := 200; resp_text := "<article/>" |}, paper_full.
  repeat split; reflexivity.
Qed.

Lemma sample_discovered (doc_ok url_ok : bool) (topic : string) (n : Z) :
  topic ≠ "down" → discovered (sample_world doc_ok url_ok) topic n "100".
Proof.
  intros Hne tr. exists {| IdList := ["100"; "100"; "101"] |}. split.
  - simpl. by rewrite bool_decide_false.
  - simpl. left.
Qed.

Lemma dedup_one_fetch_one_index_witness :
  let run := crawl (sample_world true true)
               {| topics := ["diabetes"; "insulin"]; n_papers := 2 |} init_state in
  count (is_fetch_of "100") (trace (final run)) = 1%nat
  ∧ count (is_index_of "100") (trace (final run)) = 1%nat.
Proof.
  cbv zeta.
  destruct (dedup_one_fetch_one_index (sample_world true true)
              {| topics := ["diabetes"; "insulin"]; n_papers := 2 |} init_state "100"
              remove_dups_list_set (sample_fetch_succeeds true true))
    as (evs & Htr & _ & _ & _ & Hall).
  { simpl. apply not_elem_of_empty. }
  change (trace init_state ++ evs) with evs in Htr. subst evs.
  apply (Hall "diabetes"
           (final (crawl (sample_world true true)
                     {| topics := ["diabetes"; "insulin"]; n_papers := 2 |} init_state))).
  - simpl. left.
  - apply sample_discovered. discriminate.
  - vm_compute. reflexivity.
Defined.

(** ** Outcomes of one pass of the paper loop *)

Lemma for_each_raises {A} (l1 l2 : list A) (x : A) (body : A → M unit)
    (st st1 st2 : state) (e : exn) :
  for_each l1 body st = Returned tt st1 →
  body x st1 = Raised e st2 →
  for_each (l1 ++ x :: l2) body st = Raised e st2.
Proof.
  intros H1 Hx. rewrite for_each_app, H1. simpl.
  by rewrite (bind_raised _ _ _ _ _ Hx).
Qed.

Lemma paper_body_outcomes W topic rl i x st :
  let st0 := final (log_progress topic i st) in
  let fetched := emit (EvGet (Some rl) base_url (fetch_params x)) st0 in
  (x ∈ crawled_pmc_ids st ∧ paper_body W topic rl (i, x) st = Returned tt st0) ∨
  ((x ∉ crawled_pmc_ids st) ∧
   ∃ msg, paper_body W topic rl (i, x) st = Returned tt (emit (EvLog msg) fetched)) ∨
  ((x ∉ crawled_pmc_ids st) ∧
   ∃ e, paper_body W topic rl (i, x) st = Raised e fetched) ∨
  ((x ∉ crawled_pmc_ids st) ∧
   ∃ root pub_date msg (b : bool),
     extract_pub_date root = Ok pub_date ∧
     let d := paper_document x (extract_title root) pub_date root in
     let marked := emit (EvLog msg) (final (add_pmc_id x fetched)) in
     paper_body W topic rl (i, x) st
     = Returned tt
         (if b then emit (EvIndexDocument d) marked
          else emit (EvLog ("Failed to index document " +:+ x))
                 (emit (EvIndexDocument d) marked))).
Proof.
  intros st0 fetched.
  destruct (decide (x ∈ crawled_pmc_ids st)) as [Hin|Hnew].
  { left. split; [done|]. by apply paper_body_seen. }
  right. rewrite (paper_body_unseen W topic rl i x st Hnew). fold st0.
  pose proof (fetch_paper_cases W rl x st0) as Hf. cbv zeta in Hf. fold fetched in Hf.
  destruct (w_get W (trace st0) base_url (fetch_params x)) as [r|e].
  2: { left. split; [done|]. destruct Hf as [msg Hf]. exists msg.
       by rewrite (bind_returned _ _ _ _ _ Hf). }
  destruct (bool_decide (status_code r = 200)).
  2: { left. split; [done|]. destruct Hf as [msg Hf]. exists msg.
       by rewrite (bind_returned _ _ _ _ _ Hf). }
  right. rewrite (bind_returned _ _ _ _ _ Hf).
  pose proof (extract_and_mark_cases W x r fetched) as Hex.
  destruct (w_fromstring W (resp_text r)) as [root|e].
  - right. split; [done|]. destruct Hex as (pd & msg & Hpd & Hex).
    exists root, pd, msg, (w_index_document W
      (trace (emit (EvLog msg) (final (add_pmc_id x fetched))))
      (paper_document x (extract_title root) pd root)).
    split; [done|]. cbv zeta. rewrite (bind_returned _ _ _ _ _ Hex).
    apply index_and_report_cases.
  - left. split; [done|]. exists e. by rewrite (bind_raised _ _ _ _ _ Hex).
Qed.

(** ** Paper downloads, index calls and the seen set *)

Lemma indexed_paper_ids_app (l1 l2 : list event) :
  indexed_paper_ids (l1 ++ l2) = indexed_paper_ids l1 ++ indexed_paper_ids l2.
Proof. apply omap_app. Qed.

Lemma paper_steps_refl (st : state) : paper_steps 0 st st.
Proof.
  exists []. rewrite app_nil_r. simpl. repeat split; [|lia..].
  by rewrite (right_id_L ∅ (∪)).
Qed.

Lemma paper_steps_trans (k1 k2 : nat) (s1 s2 s3 : state) :
  paper_steps k1 s1 s2 → paper_steps k2 s2 s3 → paper_steps (k1 + k2) s1 s3.
Proof.
  intros (e1 & T1 & I1 & C1 & B1) (e2 & T2 & I2 & C2 & B2).
  exists (e1 ++ e2). rewrite T2, T1, <- app_assoc. split; [done|].
  rewrite I2, I1, indexed_paper_ids_app, list_to_set_app_L, (assoc_L (∪)).
  split; [done|]. rewrite !count_app. lia.
Qed.

Lemma paper_steps_weaken (k k' : nat) (st st' : state) :
  (k ≤ k')%nat → paper_steps k st st' → paper_steps k' st st'.
Proof.
  intros Hk (evs & T & I & C & B). exists evs. repeat split; [done..|lia].
Qed.

(** Events that are neither a paper download nor a paper index call. *)
Lemma paper_steps_quiet (st st' : state) (evs : list event) :
  trace st' = trace st ++ evs →
  crawled_pmc_ids st' = crawled_pmc_ids st →
  Forall (fun e => is_paper_fetch e = false ∧ is_paper_index e = false) evs →
  paper_steps 0 st st'.
Proof.
  intros T I Hall. exists evs. split; [done|].
  assert (Hids : indexed_paper_ids evs = []).
  { clear T. induction Hall as [|e l [_ He] _ IH]; [done|].
    destruct e; simpl in He; unfold indexed_paper_ids; simpl;
      fold (indexed_paper_ids l); try done.
    by rewrite He. }
  rewrite Hids, I. simpl. rewrite (right_id_L ∅ (∪)). split; [done|].
  rewrite (count_none is_paper_fetch), (count_none is_paper_index); [lia|..];
    eapply Forall_impl; try exact Hall; by intros e [? ?].
Qed.

Lemma paper_body_steps W topic rl ip st :
  paper_steps 1 st (final (paper_body W topic rl ip st)).
Proof.
  destruct ip as [i x].
  destruct (log_progress_returned topic i st) as (_ & (logs & Htr & Hlogs) & Hids & _).
  assert (Hq : Forall (fun e => is_paper_fetch e = false ∧ is_paper_index e = false) logs).
  { eapply Forall_impl; [exact Hlogs|]. by intros e [m ->]. }
  assert (H0 : paper_steps 0 st (final (log_progress topic i st)))
    by (by apply (paper_steps_quiet _ _ logs)).
  assert (Hget : is_paper_fetch (EvGet (Some rl) base_url (fetch_params x)) = true)
    by reflexivity.
  apply (paper_steps_trans 0 1 _ _ _ H0). clear H0 Htr Hlogs Hq.
  destruct (paper_body_outcomes W topic rl i x st)
    as [[_ ->]|[[_ [msg ->]]|[[_ [e ->]]|[_ (root & pd & msg & b & _ & ->)]]]];
    cbv zeta; simpl final.
  - apply paper_steps_weaken with 0%nat; [lia|]. apply paper_steps_refl.
  - eexists [_; _]. split; [simpl; by rewrite <- !app_assoc|].
    cbn [count indexed_paper_ids omap list_omap]. rewrite Hget. simpl.
    rewrite (right_id_L ∅ (∪)). repeat split; lia.
  - eexists [_]. split; [done|].
    cbn [count indexed_paper_ids omap list_omap]. rewrite Hget. simpl.
    rewrite (right_id_L ∅ (∪)). repeat split; lia.
  - destruct b.
    + eexists [_; _; _]. split; [simpl; by rewrite <- !app_assoc|].
      cbn [count]. rewrite Hget. simpl. repeat split; [|lia..].
      rewrite (right_id_L ∅ (∪)). apply (comm_L (∪)).
    + eexists [_; _; _; _]. split; [simpl; by rewrite <- !app_assoc|].
      cbn [count]. rewrite Hget. simpl. repeat split; [|lia..].
      rewrite (right_id_L ∅ (∪)). apply (comm_L (∪)).
Qed.

Lemma for_each_paper_steps {A} (l : list A) (body : A → M unit) :
  (∀ x s, paper_steps 1 s (final (body x s))) →
  ∀ st, paper_steps (length l) st (final (for_each l body st)).
Proof.
  intros Hb. induction l as [|x l IH]; intros st; simpl.
  - apply paper_steps_refl.
  - unfold bind. specialize (Hb x st).
    destruct (body x st) as [[] s1|e s1]; simpl in *.
    + apply (paper_steps_trans 1 (length l) _ _ _ Hb (IH s1)).
    + apply paper_steps_weaken with 1%nat; [lia|done].
Qed.

Lemma for_each_paper_steps_some {A} (l : list A) (body : A → M unit) :
  (∀ x s, ∃ k, paper_steps k s (final (body x s))) →
  ∀ st, ∃ k, paper_steps k st (final (for_each l body st)).
Proof.
  intros Hb. induction l as [|x l IH]; intros st; simpl.
  - exists 0%nat. apply paper_steps_refl.
  - unfold bind. destruct (Hb x st) as [k1 H1].
    destruct (body x st) as [[] s1|e s1]; simpl in *; [|eauto].
    destruct (IH s1) as [k2 H2]. exists (k1 + k2)%nat.
    by apply (paper_steps_trans k1 k2 _ s1).
Qed.

Lemma index_papers_by_topic_steps W topic n st :
  paper_steps
    (match w_esearch W (trace st) topic n with
     | Ok sr => length (w_list_set W (IdList sr))
     | Err _ => 0
     end)
    st (final (index_papers_by_topic W topic n st)).
Proof.
  unfold index_papers_by_topic, bind, get_top_n_papers, logging_info, RateLimiter.
  destruct (w_esearch W (trace st) topic n) as [sr|e]; simpl.
  2: { apply (paper_steps_quiet _ _ [EvESearch email topic n]); [done..|].
       by repeat constructor. }
  match goal with |- paper_steps _ _ (final (for_each ?l ?b ?s)) =>
    pose proof (for_each_paper_steps l b (paper_body_steps W topic _) s) as Hloop;
    assert (Hpre : paper_steps 0 st s)
  end.
  { eapply (paper_steps_quiet _ _ [_; _]); [simpl; by rewrite <- !app_assoc|done|].
    by repeat constructor. }
  unfold enumerate in Hloop. rewrite length_imap in Hloop.
  apply (paper_steps_trans 0 _ _ _ _ Hpre Hloop).
Qed.

Lemma feed_event_quiet W (k : nat) (e : event) :
  feed_event W k e → is_paper_fetch e = false ∧ is_paper_index e = false.
Proof.
  destruct e; simpl; try done.
  - by intros [-> _].
  - intros [ht ->]. by split.
Qed.

Lemma crawl_steps W cfg st : ∃ k, paper_steps k st (final (crawl W cfg st)).
Proof.
  unfold crawl, bind at 1, os_makedirs.
  assert (H1 : paper_steps 0 st (emit (EvMakedirs "papers") st)).
  { apply (paper_steps_quiet _ _ [EvMakedirs "papers"]); [done..|].
    by repeat constructor. }
  destruct (index_medline_plus_events W (topics cfg) (emit (EvMakedirs "papers") st))
    as (evs & Htr & Hall).
  assert (H2 : paper_steps 0 (emit (EvMakedirs "papers") st)
                 (final (index_medline_plus W (topics cfg)
                           (emit (EvMakedirs "papers") st)))).
  { apply (paper_steps_quiet _ _ evs); [done| |].
    - apply (index_medline_plus_ids W (topics cfg)).
    - eapply Forall_impl; [exact Hall|]. apply feed_event_quiet. }
  pose proof (paper_steps_trans 0 0 _ _ _ H1 H2) as H12. clear H1 H2 Htr Hall.
  unfold bind.
  destruct (index_medline_plus W (topics cfg) _) as [[] s0|e s0]; simpl in *; [|eauto].
  assert (Htopic : ∀ topic s,
            ∃ k, paper_steps k s (final (index_papers_by_topic W topic (n_papers cfg) s))).
  { intros topic s. eexists. apply index_papers_by_topic_steps. }
  destruct (for_each_paper_steps_some (topics cfg)
              (fun topic => index_papers_by_topic W topic (n_papers cfg)) Htopic s0)
    as [k Hk].
  exists k. apply (paper_steps_trans 0 k _ _ _ H12 Hk).
Qed.

(** X6. One call of index_papers_by_topic makes no more index calls
    than paper downloads, and no more downloads than there are distinct ids
    in the search answer, hence no more than the answer holds; when the
    search fails it makes none. *)
Theorem topic_fetch_bounds (W : World) (topic : string) (n : Z) (st : state) :
  list_set_spec (w_list_set W) →
  ∃ evs,
    trace (final (index_papers_by_topic W topic n st)) = trace st ++ evs ∧
    (count is_paper_index evs ≤ count is_paper_fetch evs)%nat ∧
    match w_esearch W (trace st) topic n with
    | Ok sr =>
        (count is_paper_fetch evs ≤ length (w_list_set W (IdList sr)))%nat ∧
        (length (w_list_set W (IdList sr)) ≤ length (IdList sr))%nat
    | Err _ => count is_paper_fetch evs = 0%nat
    end.
Proof.
  intros Hset.
  destruct (index_papers_by_topic_steps W topic n st) as (evs & Htr & _ & Hle & Hk).
  exists evs. split; [done|]. split; [done|].
  destruct (w_esearch W (trace st) topic n) as [sr|e]; [|lia].
  split; [done|]. destruct (Hset (IdList sr)) as [Hnd Hmem].
  apply submseteq_length, NoDup_submseteq; [done|]. intros x. apply Hmem.
Qed.

Lemma topic_fetch_bounds_witness :
  let evs := trace (final (index_papers_by_topic (sample_world true true)
                             "diabetes" 2 init_state)) in
  (count is_paper_index evs ≤ count is_paper_fetch evs)%nat
  ∧ (count is_paper_fetch evs ≤ 2)%nat.
Proof.
  cbv zeta.
  destruct (topic_fetch_bounds (sample_world true true) "diabetes" 2 init_state
              remove_dups_list_set) as (evs & Htr & Hle & Hk).
  change (trace init_state ++ evs) with evs in Htr. subst evs.
  split; [exact Hle|]. simpl in Hk. destruct Hk as [Hk _]. exact Hk.
Defined.

(** X7. Over a whole crawl the seen set grows by exactly the ids of the
    paper documents handed to the indexer: a paper is marked seen iff it was
    seen before or a document for it was passed to index_document, and there
    are never more paper index calls than paper downloads. *)
Theorem seen_set_tracks_indexed_papers (W : World) (cfg : config) (st : state) :
  ∃ evs,
    trace (final (crawl W cfg st)) = trace st ++ evs ∧
    crawled_pmc_ids (final (crawl W cfg st))
    = crawled_pmc_ids st ∪ list_to_set (indexed_paper_ids evs) ∧
    (count is_paper_index evs ≤ count is_paper_fetch evs)%nat.
Proof.
  destruct (crawl_steps W cfg st) as (k & evs & Htr & Hids & Hle & _).
  by exists evs.
Qed.

(** ** Site links *)

Lemma indexed_urls_app (l1 l2 : list event) :
  indexed_urls (l1 ++ l2) = indexed_urls l1 ++ indexed_urls l2.
Proof. apply omap_app. Qed.

#[local] Instance site_steps_refl : Reflexive site_steps.
Proof.
  intros st. exists []. rewrite app_nil_r. simpl. repeat split.
  - constructor.
  - intros u Hu. by apply elem_of_nil in Hu.
  - by rewrite (right_id_L ∅ (∪)).
Qed.

#[local] Instance site_steps_trans : Transitive site_steps.
Proof.
  intros s1 s2 s3 (e1 & T1 & N1 & D1 & S1) (e2 & T2 & N2 & D2 & S2).
  exists (e1 ++ e2). rewrite T2, T1, <- app_assoc, indexed_urls_app.
  split; [done|]. split; [|split].
  - apply NoDup_app. split; [done|]. split; [|done].
    intros u Hu1 Hu2. apply (D2 u Hu2). rewrite S1.
    apply elem_of_union. right. by apply elem_of_list_to_set.
  - intros u Hu. apply elem_of_app in Hu as [Hu|Hu]; [by apply D1|].
    intros Hin. apply (D2 u Hu). rewrite S1. apply elem_of_union. by left.
  - by rewrite S2, S1, list_to_set_app_L, (assoc_L (∪)).
Qed.

Lemma site_steps_quiet (st st' : state) (evs : list event) :
  trace st' = trace st ++ evs →
  site_urls st' = site_urls st →
  indexed_urls evs = [] →
  site_steps st st'.
Proof.
  intros T S U. exists evs. rewrite U, S. simpl. repeat split; [done| | |].
  - constructor.
  - intros u Hu. by apply elem_of_nil in Hu.
  - by rewrite (right_id_L ∅ (∪)).
Qed.

Lemma index_site_steps W rl s : preserves site_steps (index_site W rl s).
Proof.
  intros st. unfold index_site, bind, seen_site_url, add_site_url, index_url, ret.
  case_bool_decide as Hseen; simpl; [reflexivity|].
  exists [EvIndexUrl (Some rl) (site_url s) (site_metadata s)].
  split; [done|]. simpl. repeat split.
  - apply NoDup_singleton.
  - intros u Hu. apply list_elem_of_singleton in Hu. by subst u.
  - rewrite (right_id_L ∅ (∪)). apply (comm_L (∪)).
Qed.

Lemma medline_body_site_steps W topics rl ht :
  preserves site_steps (medline_body W topics rl ht).
Proof.
  assert (Hlog : ∀ msg, preserves site_steps (logging_info msg)).
  { intros msg st. by apply (site_steps_quiet _ _ [EvLog msg]). }
  unfold medline_body. pres_step; [apply Hlog|].
  pres_step; [apply Hlog|].
  pres_step. { intros st. eapply (site_steps_quiet _ _ [_]); reflexivity. }
  pres_step; [apply Hlog|].
  pres_step. { unfold sites_of. pres_step; pres_step. }
  apply preserves_for_each; [apply _..|]. intros s _. apply index_site_steps.
Qed.

Lemma indexed_urls_none (evs : list event) :
  Forall (fun e => ∀ lim u md, e ≠ EvIndexUrl lim u md) evs → indexed_urls evs = [].
Proof.
  induction 1 as [|e l He _ IH]; [done|].
  destruct e; unfold indexed_urls; simpl; fold (indexed_urls l); try done.
  by destruct (He limiter0 url md).
Qed.

Lemma index_papers_by_topic_sites W topic n :
  preserves (frame site_urls) (index_papers_by_topic W topic n).
Proof.
  unfold index_papers_by_topic. pres_frame.
  apply preserves_for_each; [apply _..|]. intros ip _.
  by apply paper_body_frame.
Qed.

Lemma index_medline_plus_site_steps W topics :
  preserves site_steps (index_medline_plus W topics).
Proof.
  intros st.
  unfold index_medline_plus, bind, datetime_today, requests_get, raise_for_status,
    logging_info, RateLimiter, lift, ret, raise.
  destruct (w_get W (trace st) _ []) as [resp|e]; simpl.
  2: { eapply (site_steps_quiet _ _ [_]); reflexivity. }
  destruct (bool_decide _); simpl.
  { eapply (site_steps_quiet _ _ [_]); reflexivity. }
  destruct (w_xmltodict_parse W (resp_text resp)) as [xml_dict|e]; simpl.
  2: { eapply (site_steps_quiet _ _ [_]); reflexivity. }
  match goal with |- context [health_topics_of ?x ?s] =>
    trans s; [|exact (preserves_health_topics site_steps x
                        (medline_body W topics (limiter (next_limiter st)))
                        (fun ht _ => medline_body_site_steps W topics _ ht) s)]
  end.
  eapply (site_steps_quiet _ _ [_; _]); [simpl; by rewrite <- !app_assoc|done..].
Qed.

Lemma crawl_site_steps W cfg : preserves site_steps (crawl W cfg).
Proof.
  unfold crawl. pres_step.
  { intros st. by apply (site_steps_quiet _ _ [EvMakedirs "papers"]). }
  pres_step; [apply index_medline_plus_site_steps|].
  unfold crawl_papers. apply preserves_for_each; [apply _..|]. intros topic _ st.
  destruct (index_papers_by_topic_events W topic (n_papers cfg) st) as (evs & Htr & Hall).
  apply (site_steps_quiet _ _ evs); [done| |].
  - apply (index_papers_by_topic_sites W topic (n_papers cfg) st).
  - apply indexed_urls_none. eapply Forall_impl; [exact Hall|].
    intros [] He; try done.
Qed.

(** X1. Over a whole crawl no site URL is passed to index_url twice, none
    that was already recorded at the start is passed at all, and the set of
    recorded site URLs grows by exactly the URLs passed. *)
Theorem site_urls_indexed_once (W : World) (cfg : config) (st : state) :
  ∃ evs,
    trace (final (crawl W cfg st)) = trace st ++ evs ∧
    NoDup (indexed_urls evs) ∧
    (∀ u, u ∈ indexed_urls evs → u ∉ site_urls st) ∧
    site_urls (final (crawl W cfg st))
    = site_urls st ∪ list_to_set (indexed_urls evs).
Proof.
  destruct (crawl_site_steps W cfg st) as (evs & Htr & Hnodup & Hfresh & Hset).
  exists evs. by repeat split.
Qed.

(** ** The health-topic stage *)

Lemma medline_body_pass_events W topics rl ht :
  preserves (extends (topic_pass_event W topics rl ht)) (medline_body W topics rl ht).
Proof.
  unfold medline_body. destruct (topic_matches W topics ht) eqn:Hm; simpl.
  2: { by apply extends_logging_info. }
  pres_step. { by apply extends_logging_info. }
  pres_step. { apply extends_index_document. by simpl. }
  pres_step. { by apply extends_logging_info. }
  intros st. unfold bind, sites_of, ret, raise.
  destruct (ht_site ht) as [|s|l] eqn:Hsite; simpl; [reflexivity..|].
  apply preserves_for_each; [apply _..|]. intros s Hs.
  unfold index_site. pres_step. { by apply extends_silent. }
  pres_step; [pres_step|].
  pres_step. { by apply extends_silent. }
  pres_step; [|pres_step].
  apply extends_index_url. simpl. split; [done|]. split; [done|].
  by exists l, s.
Qed.

Lemma indexed_documents_none (evs : list event) :
  Forall (fun e => ∀ d, e ≠ EvIndexDocument d) evs → indexed_documents evs = [].
Proof.
  induction 1 as [|e l He _ IH]; [done|].
  destruct e; unfold indexed_documents; simpl; fold (indexed_documents l); try done.
  by destruct (He d).
Qed.

Lemma topic_matches_nil W ht : topic_matches W [] ht = false.
Proof. reflexivity. Qed.

(** X2. When the feed downloads and parses, every document the
    health-topic stage hands to the indexer is the document of a topic of
    the feed that matches the configured topics, and every URL it passes to
    index_url is a site of such a topic: a topic that does not match is
    never indexed, and with no configured topic nothing is. *)
Theorem only_matching_topics_indexed (W : World) (topics : list string) (st : state)
    (resp : response) (xml_dict : feed) :
  w_get W (trace st) (feed_url (w_today W (trace st))) [] = Ok resp →
  w_xmltodict_parse W (resp_text resp) = Ok xml_dict →
  ∃ evs,
    trace (final (index_medline_plus W topics st)) = trace st ++ evs ∧
    (∀ d, EvIndexDocument d ∈ evs →
       ∃ ht, ht ∈ feed_health_topic xml_dict ∧
             topic_matches W topics ht = true ∧
             d = medline_document W ht) ∧
    (∀ lim u md, EvIndexUrl lim u md ∈ evs →
       ∃ ht l s, ht ∈ feed_health_topic xml_dict ∧
                 topic_matches W topics ht = true ∧
                 ht_site ht = SiteList l ∧ s ∈ l ∧
                 u = site_url s ∧ md = site_metadata s) ∧
    (topics = [] → indexed_documents evs = [] ∧ indexed_urls evs = []).
Proof.
  intros Hget Hparse.
  assert (Hstage : ∃ evs,
    trace (final (index_medline_plus W topics st)) = trace st ++ evs ∧
    Forall (fun e => (∃ msg, e = EvLog msg) ∨ (∃ url, e = EvGet None url []) ∨
                     ∃ ht rl, ht ∈ feed_health_topic xml_dict ∧
                              topic_pass_event W topics rl ht e) evs).
  { unfold index_medline_plus, bind, datetime_today, requests_get, raise_for_status,
      logging_info, RateLimiter, lift, ret, raise.
    rewrite Hget. simpl. destruct (bool_decide _); simpl.
    { eexists [_]. split; [done|]. constructor; [|constructor]. right. left. eauto. }
    rewrite Hparse. simpl.
    match goal with |- context [health_topics_of ?x ?s] =>
      set (run := bind (health_topics_of x)
                    (fun hts => for_each hts
                                  (medline_body W topics (limiter (next_limiter st)))) s);
      assert (Hloop : extends (fun e => ∃ ht rl, ht ∈ feed_health_topic xml_dict ∧
                                                 topic_pass_event W topics rl ht e)
                        s (final run))
    end.
    { apply preserves_health_topics; [apply _..|]. intros ht Hht.
      eapply preserves_impl; [|apply medline_body_pass_events].
      intros e He. eauto. }
    destruct Hloop as (evs & Htr & Hall).
    exists (EvGet None (feed_url (w_today W (trace st))) [] ::
            EvLog ("Indexing " +:+ feed_total xml_dict +:+
                   " health topics from MedlinePlus") :: evs).
    split.
    - change (trace (final run)
              = trace st ++
                EvGet None (feed_url (w_today W (trace st))) [] ::
                EvLog ("Indexing " +:+ feed_total xml_dict +:+
                       " health topics from MedlinePlus") :: evs).
      rewrite Htr. simpl. by rewrite <- !app_assoc.
    - constructor; [right; left; eauto|]. constructor; [left; eauto|].
      eapply Forall_impl; [exact Hall|]. intros e He. by right; right. }
  destruct Hstage as (evs & Htr & Hall). exists evs. split; [done|].
  rewrite Forall_forall in Hall.
  assert (Hdoc : ∀ d, EvIndexDocument d ∈ evs →
            ∃ ht, ht ∈ feed_health_topic xml_dict ∧
                  topic_matches W topics ht = true ∧ d = medline_document W ht).
  { intros d Hd. destruct (Hall _ Hd) as [[m Hm]|[[u Hu]|(ht & rl & Hin & Hm & ->)]];
      [discriminate..|]. by exists ht. }
  assert (Hurl : ∀ lim u md, EvIndexUrl lim u md ∈ evs →
            ∃ ht l s, ht ∈ feed_health_topic xml_dict ∧
                      topic_matches W topics ht = true ∧
                      ht_site ht = SiteList l ∧ s ∈ l ∧
                      u = site_url s ∧ md = site_metadata s).
  { intros lim u md Hu.
    destruct (Hall _ Hu) as [[m Hm]|[[u' Hu']|(ht & rl & Hin & Hm & _ & l & s & Hx)]];
      [discriminate..|]. exists ht, l, s. by destruct Hx as (? & ? & ? & ?). }
  split; [exact Hdoc|]. split; [exact Hurl|].
  intros ->. split.
  - apply indexed_documents_none, Forall_forall. intros e He d ->.
    destruct (Hdoc d He) as (ht & _ & Hm & _). by rewrite topic_matches_nil in Hm.
  - apply indexed_urls_none, Forall_forall. intros e He lim u md ->.
    destruct (Hurl lim u md He) as (ht & _ & _ & _ & Hm & _).
    by rewrite topic_matches_nil in Hm.
Qed.

Lemma only_matching_topics_indexed_witness :
  indexed_documents
    (trace (final (index_medline_plus (sample_world true true) [] init_state))) = []
  ∧ indexed_urls
      (trace (final (index_medline_plus (sample_world true true) [] init_state))) = [].
Proof.
  destruct (only_matching_topics_indexed (sample_world true true) [] init_state
              {| status_code := 200; resp_text := "<health-topics/>" |}
              sample_feed eq_refl eq_refl) as (evs & Htr & _ & _ & Hnone).
  change (trace init_state ++ evs) with evs in Htr. subst evs.
  by apply Hnone.
Defined.

(** X11. Whatever the shape of the also-called field, a health topic
    matches iff some configured topic equals, after lowercasing both, the
    topic's title or one of its synonyms; with the field absent only the
    title counts, and with no configured topic nothing matches. *)
Theorem topic_filter_shapes (W : World) (topics : list string) (ht : health_topic) :
  (topic_matches W topics ht = true ↔
     ∃ t, t ∈ topics ∧
       (w_lower W t = w_lower W (ht_title ht) ∨
        match ht_also_called ht with
        | None => False
        | Some (SynStr s) => w_lower W t = w_lower W s
        | Some (SynList l) => ∃ s, s ∈ l ∧ w_lower W t = w_lower W s
        end)) ∧
  topic_matches W [] ht = false.
Proof.
  split; [|reflexivity].
  rewrite topic_matches_spec. unfold all_names.
  split; intros (t & Hin & Ht); exists t; (split; [done|]).
  - apply elem_of_cons in Ht as [Ht|Ht]; [by left|right].
    destruct (ht_also_called ht) as [[s|l]|].
    + by apply list_elem_of_singleton in Ht.
    + apply list_elem_of_fmap in Ht as (s & -> & Hs). eauto.
    + by apply elem_of_nil in Ht.
  - apply elem_of_cons. destruct Ht as [Ht|Ht]; [by left|right].
    destruct (ht_also_called ht) as [[s|l]|]; [| |done].
    + by apply list_elem_of_singleton.
    + destruct Ht as (s & Hs & ->). apply list_elem_of_fmap. eauto.
Qed.

Lemma crawl_papers_grows W ts n :
  preserves (extends (fun _ => True)) (crawl_papers W ts n).
Proof.
  unfold crawl_papers. apply preserves_for_each; [apply _..|]. intros topic _ st.
  eapply extends_impl; [|apply index_papers_by_topic_events]. done.
Qed.

(** X3. A failure of the health-topic feed is fatal to the whole crawl:
    when its download raises, answers with a 4xx or 5xx status, or does not
    parse, crawl raises with nothing done beyond creating the folder and the
    one download, so no paper is searched or fetched.  Any other status,
    200 or not, is accepted and the body is parsed. *)
Theorem feed_failure_aborts_crawl (W : World) (cfg : config) (st : state) :
  let st1 := emit (EvMakedirs "papers") st in
  let url := feed_url (w_today W (trace st1)) in
  let got := emit (EvGet None url []) st1 in
  (∀ e, w_get W (trace st1) url [] = Err e → crawl W cfg st = Raised e got) ∧
  (∀ r, w_get W (trace st1) url [] = Ok r →
        400 ≤ status_code r < 600 →
        crawl W cfg st = Raised (HTTPError (status_code r)) got) ∧
  (∀ r e, w_get W (trace st1) url [] = Ok r →
          ¬ (400 ≤ status_code r < 600) →
          w_xmltodict_parse W (resp_text r) = Err e →
          crawl W cfg st = Raised e got) ∧
  (∀ r xml_dict, w_get W (trace st1) url [] = Ok r →
          ¬ (400 ≤ status_code r < 600) →
          w_xmltodict_parse W (resp_text r) = Ok xml_dict →
          ∃ evs, trace (final (crawl W cfg st))
                 = trace got ++
                   EvLog ("Indexing " +:+ feed_total xml_dict +:+
                          " health topics from MedlinePlus") :: evs).
Proof.
  intros st1 url got.
  assert (Hcrawl : crawl W cfg st
                   = bind (index_medline_plus W (topics cfg))
                       (fun _ => crawl_papers W (topics cfg) (n_papers cfg)) st1)
    by reflexivity.
  split; [|split; [|split]].
  - intros e He. rewrite Hcrawl. apply bind_raised.
    unfold index_medline_plus, bind, datetime_today, requests_get. fold url.
    by rewrite He.
  - intros r Hr Hst. rewrite Hcrawl. apply bind_raised.
    unfold index_medline_plus, bind, datetime_today, requests_get, raise_for_status.
    fold url. rewrite Hr. by rewrite bool_decide_true.
  - intros r e Hr Hst He. rewrite Hcrawl. apply bind_raised.
    unfold index_medline_plus, bind, datetime_today, requests_get, raise_for_status.
    fold url. rewrite Hr. rewrite bool_decide_false by done. simpl.
    by rewrite He.
  - intros r xml_dict Hr Hst Hxml. rewrite Hcrawl.
    set (s0 := {| trace := (trace st1 ++ [EvGet None url []]) ++
                           [EvLog ("Indexing " +:+ feed_total xml_dict +:+
                                   " health topics from MedlinePlus")];
                  site_urls := site_urls st1;
                  crawled_pmc_ids := crawled_pmc_ids st1;
                  next_limiter := S (next_limiter st1) |}).
    set (run := bind (health_topics_of xml_dict)
                  (fun hts => for_each hts
                     (medline_body W (topics cfg) (limiter (next_limiter st1)))) s0).
    assert (Hstage : index_medline_plus W (topics cfg) st1 = run).
    { unfold index_medline_plus, bind at 1 2 3 4 5 6, datetime_today, requests_get,
        raise_for_status.
      fold url. rewrite Hr. rewrite bool_decide_false by done. simpl.
      by rewrite Hxml. }
    assert (Hloop : extends (fun _ => True) s0 (final run)).
    { apply preserves_health_topics; [apply _..|]. intros ht _.
      eapply preserves_impl; [|apply medline_body_events]. done. }
    destruct Hloop as (evs1 & T1 & _).
    unfold bind at 1. rewrite Hstage.
    destruct run as [[] s'|e s']; simpl in *.
    + destruct (crawl_papers_grows W (topics cfg) (n_papers cfg) s') as (evs2 & T2 & _).
      exists (evs1 ++ evs2). rewrite T2, T1. simpl. by rewrite <- !app_assoc.
    + exists evs1. rewrite T1. simpl. by rewrite <- !app_assoc.
Qed.

Lemma feed_failure_aborts_crawl_witness :
  let cfg := {| topics := ["diabetes"]; n_papers := 2 |} in
  (∃ s, crawl (feed_status_world 503) cfg init_state = Raised (HTTPError 503) s)
  ∧ searched_topics (trace (final (crawl (feed_status_world 503) cfg init_state))) = []
  ∧ ∃ evs, trace (final (crawl (feed_status_world 301) cfg init_state))
           = [EvMakedirs "papers";
              EvGet None "https://medlineplus.gov/xml/mplus_topics_2023-05-01.xml" [];
              EvLog "Indexing 2 health topics from MedlinePlus"] ++ evs.
Proof.
  cbv zeta.
  destruct (feed_failure_aborts_crawl (feed_status_world 503)
              {| topics := ["diabetes"]; n_papers := 2 |} init_state)
    as (_ & H5xx & _).
  destruct (feed_failure_aborts_crawl (feed_status_world 301)
              {| topics := ["diabetes"]; n_papers := 2 |} init_state)
    as (_ & _ & _ & H3xx).
  cbv zeta in H5xx, H3xx.
  split; [|split].
  - eexists. apply (H5xx {| status_code := 503; resp_text := "<health-topics/>" |}).
    + reflexivity.
    + simpl. lia.
  - rewrite (H5xx {| status_code := 503; resp_text := "<health-topics/>" |});
      [reflexivity|reflexivity|simpl; lia].
  - destruct (H3xx {| status_code := 301; resp_text := "<health-topics/>" |}
                sample_feed)
      as [evs Hevs]; [reflexivity|simpl; lia|reflexivity|].
    exists evs. exact Hevs.
Defined.

(** ** Errors that are not caught *)

(** X4. A payload that downloads with status 200 but does not parse is
    not skipped: the parse error leaves the loop over the papers right after
    the download, with the paper not marked seen and no document indexed for
    it, and the papers after it are not processed. *)
Theorem parse_error_leaves_loop (W : World) (topic : string) (rl : rate_limiter)
    (l1 l2 : list (nat * string)) (i : nat) (x : string)
    (st st1 : state) (r : response) (e : exn) :
  let body := paper_body W topic rl in
  let st0 := final (log_progress topic i st1) in
  let fetched := emit (EvGet (Some rl) base_url (fetch_params x)) st0 in
  for_each l1 body st = Returned tt st1 →
  x ∉ crawled_pmc_ids st1 →
  w_get W (trace st0) base_url (fetch_params x) = Ok r →
  status_code r = 200 →
  w_fromstring W (resp_text r) = Err e →
  for_each (l1 ++ (i, x) :: l2) body st = Raised e fetched ∧
  x ∉ crawled_pmc_ids fetched.
Proof.
  intros body st0 fetched Hl1 Hnew Hget H200 Hparse.
  destruct (log_progress_returned topic i st1) as (_ & _ & Hids & _).
  fold st0 in Hids.
  split; [|change (crawled_pmc_ids fetched) with (crawled_pmc_ids st0); by rewrite Hids].
  apply (for_each_raises l1 l2 (i, x) body st st1); [done|].
  unfold body. rewrite paper_body_unseen by done. fold st0.
  pose proof (fetch_paper_cases W rl x st0) as Hf. cbv zeta in Hf.
  rewrite Hget in Hf. rewrite bool_decide_true in Hf by done.
  rewrite (bind_returned _ _ _ _ _ Hf).
  pose proof (extract_and_mark_cases W x r fetched) as Hex. rewrite Hparse in Hex.
  by rewrite (bind_raised _ _ _ _ _ Hex).
Qed.

Lemma parse_error_leaves_loop_witness :
  let body := paper_body garbled_world "diabetes" (limiter 0) in
  let st1 := final (for_each [(0%nat, "100")] body init_state) in
  for_each ([(0%nat, "100")] ++ (1%nat, "101") :: [(2%nat, "102")]) body init_state
  = Raised XMLSyntaxError
      (emit (EvGet (Some (limiter 0)) base_url (fetch_params "101")) st1)
  ∧ crawled_pmc_ids (emit (EvGet (Some (limiter 0)) base_url (fetch_params "101")) st1)
    = {[ "100" ]} ∪ ∅.
Proof.
  cbv zeta. split; [|reflexivity].
  eapply (parse_error_leaves_loop garbled_world "diabetes" (limiter 0)
            [(0%nat, "100")] [(2%nat, "102")] 1 "101" init_state).
  - vm_compute. reflexivity.
  - vm_compute. intros H. discriminate H.
  - reflexivity.
  - reflexivity.
  - reflexivity.
Defined.

(** X5. A matching health topic whose document was indexed but whose
    site field is not a list ends the health-topic loop: with a single site
    (a dict) the loop raises TypeError, with no site at all KeyError, in both
    cases after the topic's document has been handed to the indexer and
    before any later topic is looked at.  An empty list of sites lets the
    loop go on. *)
Theorem lone_site_ends_loop (W : World) (topics : list string) (rl : rate_limiter)
    (hts1 hts2 : list health_topic) (ht : health_topic) (st st1 : state) :
  let body := medline_body W topics rl in
  let logged := emit (EvLog ("Indexing data about " +:+ ht_title ht)) st1 in
  let indexed := emit (EvIndexDocument (medline_document W ht)) logged in
  for_each hts1 body st = Returned tt st1 →
  topic_matches W topics ht = true →
  w_index_document W (trace logged) (medline_document W ht) = true →
  (∀ s, ht_site ht = SiteDict s →
        for_each (hts1 ++ ht :: hts2) body st = Raised TypeError indexed) ∧
  (ht_site ht = SiteMissing →
        for_each (hts1 ++ ht :: hts2) body st = Raised (KeyError "site") indexed) ∧
  (ht_site ht = SiteList [] →
        for_each (hts1 ++ ht :: hts2) body st = for_each hts2 body indexed).
Proof.
  intros body logged indexed H1 Hm Hok.
  assert (Hbody : body ht st1
                  = bind (sites_of ht) (fun sites => for_each sites (index_site W rl))
                      indexed).
  { unfold body, medline_body. rewrite Hm. simpl.
    unfold bind at 1, logging_info. fold logged.
    unfold bind at 1, index_document. rewrite Hok. reflexivity. }
  assert (Hrun : for_each (hts1 ++ ht :: hts2) body st
                 = bind (body ht) (fun _ => for_each hts2 body) st1).
  { by rewrite for_each_app, H1. }
  rewrite Hrun. unfold bind at 1 2 3. rewrite Hbody. unfold bind, sites_of.
  split; [|split].
  - by intros s ->.
  - by intros ->.
  - by intros ->.
Qed.

Lemma lone_site_ends_loop_witness :
  let W := sample_world true true in
  let lone := with_site (SiteDict {| site_title := "NIH"; site_url := "https://nih.gov/d" |})
                ht_diabetes in
  let run := for_each ([] ++ lone :: [ht_diabetes])
               (medline_body W ["diabetes"] (limiter 0)) init_state in
  (∃ s, run = Raised TypeError s)
  ∧ indexed_documents (trace (final run)) = [medline_document W lone]
  ∧ indexed_urls (trace (final run)) = [].
Proof.
  cbv zeta.
  destruct (lone_site_ends_loop (sample_world true true) ["diabetes"] (limiter 0)
              [] [ht_diabetes]
              (with_site (SiteDict {| site_title := "NIH"; site_url := "https://nih.gov/d" |})
                 ht_diabetes)
              init_state init_state eq_refl eq_refl eq_refl) as (Hdict & _ & _).
  rewrite (Hdict _ eq_refl). split; [eauto|]. split; reflexivity.
Defined.

(** ** The two stages keep apart *)

Lemma omap_none {A B} (f : A → option B) (l : list A) :
  Forall (fun x => f x = None) l → omap f l = [].
Proof. induction 1 as [|x l Hx _ IH]; simpl; [done|]. by rewrite Hx. Qed.

Lemma paper_events_documents (rl : rate_limiter) (evs : list event) :
  Forall (paper_event rl) evs →
  Forall (fun d => description d = "") (indexed_documents evs).
Proof.
  induction 1 as [|e l He _ IH]; [constructor|].
  destruct e; unfold indexed_documents; simpl; fold (indexed_documents l); try done.
  constructor; [|done]. simpl in He. by destruct He as (? & ? & ? & _ & ->).
Qed.

(** X9. The health-topic stage never touches the set of seen papers,
    never searches Entrez and never downloads or indexes a paper; one call
    of index_papers_by_topic never touches the set of site URLs, never calls
    index_url, searches exactly once, for its own topic, and hands only
    paper documents to the indexer. *)
Theorem stages_keep_apart (W : World) (st : state) :
  (∀ topics, ∃ evs,
      trace (final (index_medline_plus W topics st)) = trace st ++ evs ∧
      crawled_pmc_ids (final (index_medline_plus W topics st)) = crawled_pmc_ids st ∧
      searched_topics evs = [] ∧
      count is_paper_fetch evs = 0%nat ∧
      count is_paper_index evs = 0%nat) ∧
  (∀ topic n, ∃ evs,
      trace (final (index_papers_by_topic W topic n st)) = trace st ++ evs ∧
      site_urls (final (index_papers_by_topic W topic n st)) = site_urls st ∧
      indexed_urls evs = [] ∧
      searched_topics evs = [topic] ∧
      Forall (fun d => description d = "") (indexed_documents evs)).
Proof.
  split.
  - intros topics.
    destruct (index_medline_plus_events W topics st) as (evs & Htr & Hall).
    exists evs. split; [done|]. split; [apply (index_medline_plus_ids W topics st)|].
    split; [|split].
    + apply omap_none. eapply Forall_impl; [exact Hall|]. by intros [] He.
    + apply count_none. eapply Forall_impl; [exact Hall|].
      intros e He. by destruct (feed_event_quiet W _ e He).
    + apply count_none. eapply Forall_impl; [exact Hall|].
      intros e He. by destruct (feed_event_quiet W _ e He).
  - intros topic n.
    pose proof (index_papers_by_topic_sites W topic n st) as Hsites.
    revert Hsites.
    unfold index_papers_by_topic, bind, get_top_n_papers, logging_info, RateLimiter.
    destruct (w_esearch W (trace st) topic n) as [sr|e]; simpl; intros Hsites.
    2: { exists [EvESearch email topic n]. repeat split; first [done|constructor]. }
    match goal with |- context [final (for_each ?l ?b ?s)] =>
      destruct (preserves_for_each (extends (paper_event (limiter (next_limiter st))))
                  l b (fun ip _ => paper_body_events W topic _ ip) s)
        as (evs & Htr & Hall)
    end.
    eexists (_ :: _ :: evs). split; [rewrite Htr; simpl; by rewrite <- !app_assoc|].
    split; [exact Hsites|]. split; [|split].
    + unfold indexed_urls. simpl. apply omap_none.
      eapply Forall_impl; [exact Hall|]. by intros [] He.
    + unfold searched_topics. simpl. f_equal. apply omap_none.
      eapply Forall_impl; [exact Hall|]. by intros [] He.
    + unfold indexed_documents. simpl. by apply (paper_events_documents _ _ Hall).
Qed.

(** ** Body paragraphs *)

Lemma element_children_ind (P : element → Prop) :
  (∀ t x cs, Forall P cs → P (Element t x cs)) → ∀ e, P e.
Proof.
  intros H.
  exact (fix F (e : element) : P e :=
           match e with
           | Element t x cs =>
               H t x cs
                 ((fix G (l : list element) : Forall P l :=
                     match l with
                     | [] => @List.Forall_nil _ P
                     | c :: l' => @List.Forall_cons _ P c l' (F c) (G l')
                     end) cs)
           end).
Qed.

Lemma elem_of_iterdescendants (e p : element) :
  p ∈ iterdescendants e ↔
  ∃ c, c ∈ children e ∧ (p = c ∨ p ∈ iterdescendants c).
Proof.
  destruct e as [t x cs]. simpl. rewrite list_elem_of_In, in_flat_map. split.
  - intros (c & Hc & Hp). exists c. rewrite list_elem_of_In. split; [done|].
    simpl in Hp. destruct Hp as [<-|Hp]; [by left|right]. by apply list_elem_of_In.
  - intros (c & Hc & Hp). exists c. rewrite <- list_elem_of_In. split; [done|].
    simpl. destruct Hp as [->|Hp]; [by left|right]. by apply list_elem_of_In.
Qed.

Lemma iterdescendants_trans (e b p : element) :
  b ∈ iterdescendants e → p ∈ iterdescendants b → p ∈ iterdescendants e.
Proof.
  revert b p. induction e as [t x cs IH] using element_children_ind.
  intros b p Hb Hp. apply elem_of_iterdescendants in Hb as (c & Hc & Hb).
  apply elem_of_iterdescendants. exists c. split; [done|]. right.
  destruct Hb as [->|Hb]; [done|].
  rewrite Forall_forall in IH. by apply (IH c Hc b p).
Qed.

(** X8. The sections of a paper document are the paragraphs found under
    the body elements of the payload: a section is kept for a p element
    exactly when it lies below a body element that lies below the root, with
    the text of that paragraph, null included.  Every such paragraph is an
    element of the payload; a payload with no body element below the root
    gives no section, and one with a single body element gives its
    paragraphs in document order. *)
Theorem sections_are_body_paragraphs (root : element) :
  (∀ s, s ∈ extract_sections root ↔
        ∃ b p, b ∈ iterdescendants root ∧ tag b = "body" ∧
               p ∈ iterdescendants b ∧ tag p = "p" ∧
               s = {| sec_text := text p |}) ∧
  (∀ b p, b ∈ iterdescendants root → p ∈ iterdescendants b →
          p ∈ iterdescendants root) ∧
  (Forall (fun x => tag x ≠ "body") (iterdescendants root) →
     extract_sections root = []) ∧
  (∀ b, filter (fun x => has_tag "body" x = true) (iterdescendants root) = [b] →
        extract_sections root
        = map (fun p => {| sec_text := text p |})
            (filter (fun y => has_tag "p" y = true) (iterdescendants b))).
Proof.
  split; [|split; [|split]].
  - intros s. unfold extract_sections, findall_descendant2.
    rewrite list_elem_of_In, in_map_iff. split.
    + intros (p & <- & Hp). apply in_flat_map in Hp as (b & Hb & Hp).
      apply list_elem_of_In, list_elem_of_filter in Hb as [Hbt Hb].
      apply list_elem_of_In, list_elem_of_filter in Hp as [Hpt Hp].
      exists b, p. rewrite has_tag_true in Hbt, Hpt. by repeat split.
    + intros (b & p & Hb & Hbt & Hp & Hpt & ->). exists p. split; [done|].
      apply in_flat_map. exists b.
      split; apply list_elem_of_In, list_elem_of_filter; by rewrite has_tag_true.
  - intros b p. apply iterdescendants_trans.
  - intros Hnone. unfold extract_sections, findall_descendant2.
    replace (filter _ (iterdescendants root)) with (@nil element); [done|].
    symmetry. induction Hnone as [|x l Hx _ IH]; [done|].
    rewrite filter_cons, decide_False; [done|]. by rewrite has_tag_true.
  - intros b Hb. unfold extract_sections, findall_descendant2. rewrite Hb. simpl.
    by rewrite app_nil_r.
Qed.

Lemma sections_are_body_paragraphs_witness :
  extract_sections paper_full = [ {| sec_text := Some "first" |}; {| sec_text := None |} ]
  ∧ extract_sections paper_bare = [].
Proof.
  destruct (sections_are_body_paragraphs paper_full) as (_ & _ & _ & Hone).
  destruct (sections_are_body_paragraphs paper_bare) as (_ & _ & Hnone & _).
  split.
  - rewrite (Hone (Element "body" None
                     [ Element "p" (Some "first") [];
                       Element "sec" None [ Element "p" None [] ] ]));
      reflexivity.
  - apply Hnone. constructor.
Defined.

(** ** Papers already seen *)

#[local] Instance seen_quiet_refl (x : string) : Reflexive (seen_quiet x).
Proof. intros st Hin. split; [done|reflexivity]. Qed.

#[local] Instance seen_quiet_trans (x : string) : Transitive (seen_quiet x).
Proof.
  intros s1 s2 s3 H1 H2 Hin. destruct (H1 Hin) as [Hin2 E1].
  destruct (H2 Hin2) as [Hin3 E2]. split; [done|]. by etrans.
Qed.

Lemma seen_quiet_unrelated (pmc_id : string) (st st' : state) :
  extends (unrelated pmc_id) st st' →
  crawled_pmc_ids st ⊆ crawled_pmc_ids st' →
  seen_quiet pmc_id st st'.
Proof. intros Hext Hsub Hin. split; [by apply Hsub|done]. Qed.

Lemma paper_body_seen_quiet W topic rl ip pmc_id :
  preserves (seen_quiet pmc_id) (paper_body W topic rl ip).
Proof.
  intros st Hin. split; [by apply (paper_body_ids_grow W topic rl ip st)|].
  destruct ip as [i x]. destruct (decide (x = pmc_id)) as [->|Hne].
  - rewrite paper_body_seen by done. simpl.
    destruct (log_progress_returned topic i st) as (_ & Hext & _).
    eapply extends_impl; [|exact Hext]. by intros e [msg ->].
  - eapply extends_impl; [|apply paper_body_body_events].
    intros e. by apply body_event_unrelated.
Qed.

Lemma index_papers_by_topic_seen_quiet W topic n pmc_id :
  preserves (seen_quiet pmc_id) (index_papers_by_topic W topic n).
Proof.
  intros st.
  unfold index_papers_by_topic, bind, get_top_n_papers, logging_info, RateLimiter.
  destruct (w_esearch W (trace st) topic n) as [sr|e]; simpl.
  2: { apply seen_quiet_unrelated; [by apply extends_emit|done]. }
  match goal with |- seen_quiet _ _ (final (for_each ?l ?b ?s)) =>
    trans s; [|apply (preserves_for_each (seen_quiet pmc_id) l b
                        (fun ip _ => paper_body_seen_quiet W topic _ ip pmc_id) s)]
  end.
  apply seen_quiet_unrelated; [|done].
  eexists [_; _]. split; [simpl; by rewrite <- !app_assoc|]. by repeat constructor.
Qed.

Lemma crawl_seen_quiet W cfg pmc_id : preserves (seen_quiet pmc_id) (crawl W cfg).
Proof.
  unfold crawl. pres_step.
  { intros st. apply seen_quiet_unrelated; [by apply extends_emit|done]. }
  pres_step.
  { intros st. apply seen_quiet_unrelated.
    - eapply extends_impl; [|apply index_medline_plus_events].
      intros e. apply feed_event_unrelated.
    - by rewrite (index_medline_plus_ids W (topics cfg) st). }
  unfold crawl_papers. apply preserves_for_each; [apply _..|]. intros topic _.
  apply index_papers_by_topic_seen_quiet.
Qed.

(** X12. A paper that is in the seen set when a crawl starts is neither
    downloaded nor handed to the indexer during that crawl, whatever
    discovery returns, and it is still in the seen set at the end. *)
Theorem seen_paper_left_alone (W : World) (cfg : config) (st : state)
    (pmc_id : string) :
  pmc_id ∈ crawled_pmc_ids st →
  ∃ evs,
    trace (final (crawl W cfg st)) = trace st ++ evs ∧
    count (is_fetch_of pmc_id) evs = 0%nat ∧
    count (is_index_of pmc_id) evs = 0%nat ∧
    pmc_id ∈ crawled_pmc_ids (final (crawl W cfg st)).
Proof.
  intros Hin. destruct (crawl_seen_quiet W cfg pmc_id st Hin) as [Hin' (evs & Htr & Hall)].
  exists evs. split; [done|]. repeat split; [| |done].
  - apply count_none. eapply Forall_impl; [exact Hall|]. by intros e [? ?].
  - apply count_none. eapply Forall_impl; [exact Hall|]. by intros e [? ?].
Qed.

Lemma seen_paper_left_alone_witness :
  let W := sample_world true true in
  let cfg := {| topics := ["diabetes"]; n_papers := 2 |} in
  let st1 := final (crawl W cfg init_state) in
  ∃ evs, trace (final (crawl W cfg st1)) = trace st1 ++ evs ∧
         count (is_fetch_of "100") evs = 0%nat ∧
         count (is_index_of "100") evs = 0%nat.
Proof.
  cbv zeta.
  destruct (seen_paper_left_alone (sample_world true true)
              {| topics := ["diabetes"]; n_papers := 2 |}
              (final (crawl (sample_world true true)
                        {| topics := ["diabetes"]; n_papers := 2 |} init_state))
              "100") as (evs & Htr & Hf & Hi & _).
  { vm_compute. reflexivity. }
  exists evs. by repeat split.
Defined.

(** ** A crawl without topics *)





(** X13. A feed that downloads and parses but holds fewer than two
    health topics ends the health-topic stage with an error, after the
    'Indexing N health topics' line and before any topic is looked at:
    KeyError when it holds none (the key is missing), TypeError when it
    holds exactly one (a lone dict is iterated by key), even if that topic
    is of interest. *)
Theorem short_feed_raises (W : World) (topics : list string) (st : state)
    (r : response) (xml_dict : feed) :
  let url := feed_url (w_today W (trace st)) in
  let s := {| trace := trace st ++
                       [EvGet None url [];
                        EvLog ("Indexing " +:+ feed_total xml_dict +:+
                               " health topics from MedlinePlus")];
              site_urls := site_urls st;
              crawled_pmc_ids := crawled_pmc_ids st;
              next_limiter := S (next_limiter st) |} in
  w_get W (trace st) url [] = Ok r →
  ¬ (400 ≤ status_code r < 600) →
  w_xmltodict_parse W (resp_text r) = Ok xml_dict →
  (feed_health_topic xml_dict = [] →
     index_medline_plus W topics st = Raised (KeyError "health-topic") s) ∧
  (∀ ht, feed_health_topic xml_dict = [ht] →
     index_medline_plus W topics st = Raised TypeError s).
Proof.
  intros url s Hr Hst Hxml.
  assert (Hrun : index_medline_plus W topics st
                 = bind (health_topics_of xml_dict)
                     (fun hts => for_each hts
                                   (medline_body W topics (limiter (next_limiter st))))
                     {| trace := (trace st ++ [EvGet None url []]) ++
                                 [EvLog ("Indexing " +:+ feed_total xml_dict +:+
                                         " health topics from MedlinePlus")];
                        site_urls := site_urls st;
                        crawled_pmc_ids := crawled_pmc_ids st;
                        next_limiter := S (next_limiter st) |}).
  { unfold index_medline_plus, bind at 1 2 3 4 5 6, datetime_today, requests_get,
      raise_for_status.
    fold url. rewrite Hr. rewrite bool_decide_false by done. simpl.
    by rewrite Hxml. }
  rewrite Hrun. unfold bind, health_topics_of, s. rewrite <- app_assoc. simpl.
  split.
  - by intros ->.
  - by intros ht ->.
Qed.

Lemma short_feed_raises_witness :
  (∃ s, index_medline_plus (feed_of_world [ht_diabetes]) ["diabetes"] init_state
        = Raised TypeError s)
  ∧ indexed_documents
      (trace (final (index_medline_plus (feed_of_world [ht_diabetes]) ["diabetes"]
                       init_state))) = []
  ∧ ∃ s, index_medline_plus (feed_of_world []) ["diabetes"] init_state
         = Raised (KeyError "health-topic") s.
Proof.
  destruct (short_feed_raises (feed_of_world [ht_diabetes]) ["diabetes"] init_state
              {| status_code := 200; resp_text := "<health-topics/>" |}
              {| feed_total := "1"; feed_health_topic := [ht_diabetes] |})
    as [_ Hone]; [reflexivity|simpl; lia|reflexivity|].
  destruct (short_feed_raises (feed_of_world []) ["diabetes"] init_state
              {| status_code := 200; resp_text := "<health-topics/>" |}
              {| feed_total := "0"; feed_health_topic := [] |})
    as [Hnone _]; [reflexivity|simpl; lia|reflexivity|].
  cbv zeta in Hone, Hnone.
  split; [|split].
  - eexists. by apply (Hone ht_diabetes).
  - by rewrite (Hone ht_diabetes).
  - eexists. by apply Hnone.
Defined.

(** ** Sample runs for the site links and the topic filter *)

Lemma site_urls_indexed_once_witness :
  let run := crawl (sample_world true true)
               {| topics := ["diabetes"; "sugar"]; n_papers := 2 |} init_state in
  indexed_urls (trace (final run)) = ["https://nih.gov/d"; "https://cdc.gov/d"]
  ∧ NoDup (indexed_urls (trace (final run))).
Proof.
  cbv zeta.
  destruct (site_urls_indexed_once (sample_world true true)
              {| topics := ["diabetes"; "sugar"]; n_papers := 2 |} init_state)
    as (evs & Htr & Hnodup & _).
  change (trace init_state ++ evs) with evs in Htr. subst evs.
  split; [vm_compute; reflexivity|exact Hnodup].
Defined.

Lemma topic_filter_shapes_witness :
  topic_matches (sample_world true true) ["SUGAR"]
    (with_also_called (Some (SynList ["Glucose"; "Sugar"])) ht_diabetes) = true
  ∧ topic_matches (sample_world true true) ["sugar"]
      (with_also_called None ht_diabetes) = false.
Proof.
  split.
  - apply (topic_filter_shapes (sample_world true true) ["SUGAR"]
             (with_also_called (Some (SynList ["Glucose"; "Sugar"])) ht_diabetes)).
    exists "SUGAR". split; [left|]. right. simpl. exists "Sugar".
    split; [right; left|reflexivity].
  - destruct (topic_matches _ _ _) eqn:Hm; [|reflexivity].
    apply (topic_filter_shapes (sample_world true true) ["sugar"]
             (with_also_called None ht_diabetes)) in Hm.
    destruct Hm as (t & Hin & [Ht|[]]).
    apply list_elem_of_singleton in Hin. subst t. vm_compute in Ht. discriminate Ht.
Defined.
